(** * The structured-feedback extractor of the debate-coach backend

    A shallow embedding of the response-parsing part of
    [evaluate_argument] in [src/app.py] (lines 121-145): four calls of
    [re.search] on the model's reply, [float] on the captured score token,
    [str.strip] on the captured text spans, and the fixed fallbacks.

    A Python [str] is a sequence of Unicode code points.  The regular
    expressions are kept as syntax trees and run by a backtracking matcher
    that tries alternatives in the order of Python's [re] module. *)

From Stdlib Require Import String Ascii.
From Stdlib Require Import List NArith ZArith Bool Lia SpecFloat.
Import ListNotations.

(** ** Strings *)

Definition char := N.
Definition str := list char.

(** The code points of a literal written with one-byte characters. *)
Definition str_of (s : string) : str := map N_of_ascii (list_ascii_of_string s).

(** ** Character classes of the interpreter

    [\s], [\d], [str.strip] and [float] consult CPython's Unicode tables
    ([Py_UNICODE_ISSPACE], [Py_UNICODE_TODECIMAL]).  The tables are not part
    of the repository and grow with the Unicode version of the interpreter;
    they are a parameter here.  Their ASCII part is the same in every
    version and is all the development relies on. *)

Definition ascii_isspace (c : char) : bool :=
  ((9 <=? c) && (c <=? 13) || (28 <=? c) && (c <=? 32))%N.

Definition ascii_todecimal (c : char) : option N :=
  if ((48 <=? c) && (c <=? 57))%N then Some (c - 48)%N else None.

Record unicode_db : Type := {
  Py_UNICODE_ISSPACE : char -> bool;
  Py_UNICODE_TODECIMAL : char -> option N;
  isspace_ascii :
    forall c, (c < 128)%N -> Py_UNICODE_ISSPACE c = ascii_isspace c;
  todecimal_ascii :
    forall c, (c < 128)%N -> Py_UNICODE_TODECIMAL c = ascii_todecimal c
}.

(** ** Results of Python expressions that may raise *)

Inductive exn := AttributeError | TypeError | ValueError.

Inductive result (A : Type) : Type :=
| Ret (a : A)
| Raise (e : exn).
Arguments Ret {A} a.
Arguments Raise {A} e.

Definition bind {A B} (x : result A) (f : A -> result B) : result B :=
  match x with
  | Ret a => f a
  | Raise e => Raise e
  end.

Notation "x <- e1 ;; e2" := (bind e1 (fun x => e2))
  (at level 61, e1 at next level, right associativity).

(** ** Regular expressions: the fragment of [re] syntax used by the source *)

Inductive charset :=
| CLit (c : char)   (* an ordinary or escaped character, [\*] [\.] [R] *)
| CDigit            (* [\d] *)
| CSpace            (* [\s] *)
| CAny.             (* [.] under [re.DOTALL] *)

Inductive regex :=
| Eps
| One (cs : charset)
| Star (cs : charset)            (* [x*], greedy *)
| StarLazy (cs : charset)        (* [x*?] *)
| Cat (r1 r2 : regex)
| Alt (r1 r2 : regex)            (* [r1|r2], left first *)
| Group (r : regex)              (* [( ... )], group 1 *)
| Lookahead (r : regex)          (* [(?= ... )] *)
| EndOfString.                   (* [\Z] *)

Definition Plus (cs : charset) : regex := Cat (One cs) (Star cs).

Definition Lit (s : str) : regex :=
  fold_right (fun c r => Cat (One (CLit c)) r) Eps s.

Section Matcher.

Variable U : unicode_db.

Definition isspace (c : char) : bool := Py_UNICODE_ISSPACE U c.
Definition isdecimal (c : char) : bool :=
  match Py_UNICODE_TODECIMAL U c with Some _ => true | None => false end.

Definition in_charset (cs : charset) (c : char) : bool :=
  match cs with
  | CLit c' => N.eqb c c'
  | CDigit => isdecimal c
  | CSpace => isspace c
  | CAny => true
  end.

Definition orelse {A} (x y : option A) : option A :=
  match x with Some _ => x | None => y end.

(** Repetition of a one-character class in front of the continuation [k]:
    the greedy form tries the longer repetition first, the lazy form the
    shorter one. *)
Fixpoint star {A} (greedy : bool) (cs : charset) (s : str)
         (k : str -> option A) : option A :=
  match s with
  | c :: s' =>
      if in_charset cs c then
        if greedy then orelse (star greedy cs s' k) (k s)
        else orelse (k s) (star greedy cs s' k)
      else k s
  | [] => k s
  end.

(** [exec r s g k]: match [r] at the front of [s] with group 1 currently
    [g], then hand the rest of the input and the group to [k]; a failure
    of [k] makes the matcher backtrack into [r]. *)
Fixpoint exec {A} (r : regex) (s : str) (g : option str)
         (k : str -> option str -> option A) : option A :=
  match r with
  | Eps => k s g
  | One cs =>
      match s with
      | c :: s' => if in_charset cs c then k s' g else None
      | [] => None
      end
  | Star cs => star true cs s (fun s' => k s' g)
  | StarLazy cs => star false cs s (fun s' => k s' g)
  | Cat r1 r2 => exec r1 s g (fun s' g' => exec r2 s' g' k)
  | Alt r1 r2 => orelse (exec r1 s g k) (exec r2 s g k)
  | Group r1 =>
      exec r1 s g
           (fun s' _ => k s' (Some (firstn (length s - length s') s)))
  | Lookahead r1 =>
      match exec r1 s g (fun _ g' => Some g') with
      | Some g' => k s g'
      | None => None
      end
  | EndOfString =>
      match s with
      | [] => k s g
      | _ :: _ => None
      end
  end.

(** A match object, reduced to what the source reads from it:
    [group(1)], which is [None] when the group took no part. *)
Record match_object := { group1 : option str }.

Definition re_match (r : regex) (s : str) : option match_object :=
  exec r s None (fun _ g => Some {| group1 := g |}).

(** [re.search]: the first start position, left to right, the end of the
    input included, at which the pattern matches. *)
Fixpoint re_search (r : regex) (s : str) : option match_object :=
  match re_match r s with
  | Some m => Some m
  | None =>
      match s with
      | [] => None
      | _ :: s' => re_search r s'
      end
  end.

(** ** [str.strip()] *)

Fixpoint lstrip (s : str) : str :=
  match s with
  | c :: s' => if isspace c then lstrip s' else s
  | [] => []
  end.

Definition rstrip (s : str) : str := rev (lstrip (rev s)).

Definition strip (s : str) : str := rstrip (lstrip s).

(** ** [float()] on a decimal numeral

    [float] is modelled on the unsigned numerals [digits] and
    [digits.digits], the only strings the score pattern can capture;
    every decimal-digit character counts with its digit value.  The rest
    of [float]'s grammar (signs, exponents, [inf], [nan], blanks,
    underscores, a bare leading or trailing point) is outside the model:
    on such strings the model answers [ValueError].  The value is the
    binary64 number nearest to the numeral, ties to even. *)

Fixpoint span_decimal (s : str) : list N * str :=
  match s with
  | c :: s' =>
      match Py_UNICODE_TODECIMAL U c with
      | Some d => let (ds, r) := span_decimal s' in (d :: ds, r)
      | None => ([], s)
      end
  | [] => ([], [])
  end.

Definition digits_value (ds : list N) : N :=
  fold_left (fun acc d => 10 * acc + d)%N ds 0%N.

Definition SF_of_N (n : N) : spec_float :=
  match n with
  | N0 => S754_zero false
  | Npos p => S754_finite false p 0
  end.

Definition prec : Z := 53.
Definition emax : Z := 1024.

(** The binary64 number nearest to [n / 10^k]: the two integers are exact
    operands of the IEEE division [SFdiv], which rounds once, to nearest
    with ties to even, and overflows to infinity. *)
Definition binary64_of_decimal (n : N) (k : nat) : spec_float :=
  SFdiv prec emax (SF_of_N n) (SF_of_N (10 ^ N.of_nat k)).

Definition float_ (s : str) : result spec_float :=
  match span_decimal s with
  | ([], _) => Raise ValueError
  | (ip, []) => Ret (binary64_of_decimal (digits_value ip) 0)
  | (ip, c :: r) =>
      if N.eqb c 46 then
        match span_decimal r with
        | ([], _) => Raise ValueError
        | (fp, []) =>
            Ret (binary64_of_decimal (digits_value (ip ++ fp)) (length fp))
        | (_, _ :: _) => Raise ValueError
        end
      else Raise ValueError
  end.

End Matcher.

(** ** The four patterns of the source *)

Definition rationality_score_marker : str := str_of "**Rationality Score:**".
Definition reasoning_marker : str := str_of "**Reasoning for Score:**".
Definition feedback_marker : str := str_of "**Feedback:**".
Definition improved_argument_marker : str := str_of "**Improved Argument:**".

Definition SP : char := 32%N.
Definition DOT : char := 46%N.
Definition STAR : char := 42%N.

(** Line 122: the marker, one space, then group 1, which is
    [\d+\.\d+|\d+]. *)
Definition rationality_score_re : regex :=
  Cat (Lit rationality_score_marker)
      (Cat (One (CLit SP))
           (Group (Alt (Cat (Plus CDigit) (Cat (One (CLit DOT)) (Plus CDigit)))
                       (Plus CDigit)))).

(** Line 126, under [re.DOTALL]: the marker, [\s*], group 1 as the lazy
    [.*?], then the lookahead for the feedback marker or [\Z]. *)
Definition reasoning_re : regex :=
  Cat (Lit reasoning_marker)
      (Cat (Star CSpace)
           (Cat (Group (StarLazy CAny))
                (Lookahead (Alt (Lit feedback_marker) EndOfString)))).

(** Line 130, under [re.DOTALL]: the marker, [\s*], group 1 as the lazy
    [.*?], then the lookahead for the improved-argument marker or [\Z]. *)
Definition feedback_re : regex :=
  Cat (Lit feedback_marker)
      (Cat (Star CSpace)
           (Cat (Group (StarLazy CAny))
                (Lookahead (Alt (Lit improved_argument_marker) EndOfString)))).

(** Line 134, under [re.DOTALL]: the marker, [\s*], then group 1 as the
    greedy [.*] up to the end of the input. *)
Definition improved_argument_re : regex :=
  Cat (Lit improved_argument_marker)
      (Cat (Star CSpace) (Group (Star CAny))).

(** ** The extractor *)

Record StructuredFeedback := {
  rationality_score : spec_float;
  reason_for_score : str;
  feedback : str;
  improved_argument : str
}.

(** The Python literal [0.5]. *)
Definition default_score : spec_float := S754_finite false 4503599627370496 (-53).
Definition default_reason : str := str_of "No reasoning provided.".
Definition default_feedback : str := str_of "No feedback provided.".
Definition default_improved : str := str_of "No improved argument provided.".

Section Extractor.

Variable U : unicode_db.

(** [float(m.group(1))]: [float(None)] is a [TypeError]. *)
Definition float_group1 (m : match_object) : result spec_float :=
  match group1 m with
  | Some t => float_ U t
  | None => Raise TypeError
  end.

(** [m.group(1).strip()]: [None] has no [strip]. *)
Definition strip_group1 (m : match_object) : result str :=
  match group1 m with
  | Some t => Ret (strip U t)
  | None => Raise AttributeError
  end.

(** Lines 121-145 of [evaluate_argument], from [ai_output] to the record
    handed to [jsonify].  An exception raised on the way is what the
    enclosing [except Exception] would turn into the 500 reply. *)
Definition extract (ai_output : str) : result StructuredFeedback :=
  let rationality_score_match := re_search U rationality_score_re ai_output in
  rationality_score <-
    match rationality_score_match with
    | Some m => float_group1 m
    | None => Ret default_score
    end ;;
  let reasoning_match := re_search U reasoning_re ai_output in
  reason_for_score <-
    match reasoning_match with
    | Some m => strip_group1 m
    | None => Ret default_reason
    end ;;
  let feedback_match := re_search U feedback_re ai_output in
  feedback <-
    match feedback_match with
    | Some m => strip_group1 m
    | None => Ret default_feedback
    end ;;
  let improved_argument_match := re_search U improved_argument_re ai_output in
  improved_argument <-
    match improved_argument_match with
    | Some m => strip_group1 m
    | None => Ret default_improved
    end ;;
  Ret {| rationality_score := rationality_score;
         reason_for_score := reason_for_score;
         feedback := feedback;
         improved_argument := improved_argument |}.

End Extractor.

(** ** A concrete table

    White space as CPython lists it; of its decimal digits those of ASCII,
    of the Arabic-Indic block and of the full-width forms only, so it is
    not the whole of CPython's table.  It is used to run the extractor on
    concrete one-byte replies, where every table of the interface agrees
    with it; the theorems are stated for every table. *)

Definition py_isspace (c : char) : bool :=
  (ascii_isspace c
   || (c =? 133) || (c =? 160) || (c =? 5760)
   || (8192 <=? c) && (c <=? 8202)
   || (c =? 8232) || (c =? 8233) || (c =? 8239) || (c =? 8287)
   || (c =? 12288))%N.

Definition py_todecimal (c : char) : option N :=
  if ((48 <=? c) && (c <=? 57))%N then Some (c - 48)%N
  else if ((1632 <=? c) && (c <=? 1641))%N then Some (c - 1632)%N
  else if ((65296 <=? c) && (c <=? 65305))%N then Some (c - 65296)%N
  else None.

(** ** Substring search, in the words of the specification

    [find m s] is Python's [s.find(m)] with [None] for [-1]; [after m s] is
    the text behind the first occurrence of [m] in [s]; [upto t s] is [s] cut
    in front of the first occurrence of [t], or all of [s] when there is
    none. *)

Fixpoint prefixb (m s : str) : bool :=
  match m, s with
  | [], _ => true
  | c :: m', d :: s' => N.eqb d c && prefixb m' s'
  | _ :: _, [] => false
  end.

Fixpoint find (m s : str) : option nat :=
  if prefixb m s then Some 0
  else match s with
       | [] => None
       | _ :: s' => option_map S (find m s')
       end.

Definition after (m s : str) : option str :=
  match find m s with
  | Some i => Some (skipn (i + length m) s)
  | None => None
  end.

Definition upto (t s : str) : str :=
  match find t s with
  | Some j => firstn j s
  | None => s
  end.

(** The number of positions of [s] at which [m] starts. *)
Fixpoint occurrences (m s : str) : nat :=
  (if prefixb m s then 1 else 0) +
  match s with
  | [] => 0
  | _ :: s' => occurrences m s'
  end.

Section Specification.

Variable U : unicode_db.

Definition decimal (c : char) : Prop := isdecimal U c = true.
Definition whitespace (c : char) : Prop := isspace U c = true.

(** What the group of the score pattern can hold: [digits] or
    [digits.digits]. *)
Inductive numeral : str -> Prop :=
| numeral_int ip :
    ip <> [] -> Forall decimal ip -> numeral ip
| numeral_frac ip fp :
    ip <> [] -> fp <> [] -> Forall decimal ip -> Forall decimal fp ->
    numeral (ip ++ DOT :: fp).

(** The text [x] behind a numeral [tok] does not continue it: [x] does
    not begin with a digit, nor, behind an integer, with a point and a
    digit. *)
Definition ends_numeral (tok x : str) : Prop :=
  match x with
  | [] => True
  | c :: x' =>
      isdecimal U c = false /\
      (c = DOT -> Forall decimal tok ->
       match x' with
       | d :: _ => isdecimal U d = false
       | [] => True
       end)
  end.

Fixpoint take_decimal (s : str) : str :=
  match s with
  | c :: s' => if isdecimal U c then c :: take_decimal s' else []
  | [] => []
  end.

Fixpoint skip_decimal (s : str) : str :=
  match s with
  | c :: s' => if isdecimal U c then skip_decimal s' else s
  | [] => []
  end.

(** The numeral at the front of [t], read as the score pattern reads it:
    the longest run of digits, with a point and a further run of digits
    when they follow. *)
Definition score_token (t : str) : option str :=
  match take_decimal t with
  | [] => None
  | ip =>
      match skip_decimal t with
      | c :: r =>
          if N.eqb c DOT then
            match take_decimal r with
            | [] => Some ip
            | fp => Some (ip ++ DOT :: fp)
            end
          else Some ip
      | [] => Some ip
      end
  end.

(** The token behind the first occurrence of the marker and one space
    that is followed by a digit. *)
Fixpoint find_score_token (s : str) : option str :=
  match (if prefixb (rationality_score_marker ++ [SP]) s
         then score_token (skipn (length rationality_score_marker + 1) s)
         else None) with
  | Some tok => Some tok
  | None =>
      match s with
      | [] => None
      | _ :: s' => find_score_token s'
      end
  end.

(** The extractor as the specification describes it: ordered substring
    search, trimming, explicit fallbacks. *)
Definition text_field (m : str) (t : option str) (dflt : str) (s : str) : str :=
  match after m s with
  | Some r =>
      strip U (match t with
               | Some t' => upto t' r
               | None => r
               end)
  | None => dflt
  end.

Definition score_field (s : str) : result spec_float :=
  match find_score_token s with
  | Some tok => float_ U tok
  | None => Ret default_score
  end.

(** The input behind the longest run of characters of a class. *)
Fixpoint skip (cs : charset) (s : str) : str :=
  match s with
  | c :: s' => if in_charset U cs c then skip cs s' else s
  | [] => []
  end.

(** The end of a lazy span: the terminator starts here, or the input
    ends here. *)
Definition stops (t s : str) : bool :=
  prefixb t s || match s with [] => true | _ :: _ => false end.

(** The match object whose group 1 is [t]. *)
Definition mk (t : str) : match_object := {| group1 := Some t |}.

(** The text [r] does not begin with a decimal digit. *)
Definition head_not_decimal (r : str) : Prop :=
  match r with
  | d :: _ => isdecimal U d = false
  | [] => True
  end.

End Specification.

(** The marker [m] occurs somewhere in [s]. *)
Definition occurs (m s : str) : Prop := exists p q, s = p ++ m ++ q.

(** Python's [0.0 <= x]. *)
Definition nonneg_float (x : spec_float) : Prop :=
  SFleb (S754_zero false) x = true.

(** Every character is a one-byte ASCII character. *)
Definition ascii_str (s : str) : Prop :=
  @Forall char (fun c => (c < 128)%N) s.

(** Python float literals: 0.8, 0.9, 1.0 and 7.5 as binary64 numbers. *)
Definition float_0_8 : spec_float := S754_finite false 7205759403792794 (-53).
Definition float_0_9 : spec_float := S754_finite false 8106479329266893 (-53).
Definition float_1_0 : spec_float := S754_finite false 4503599627370496 (-52).
Definition float_7_5 : spec_float := S754_finite false 8444249301319680 (-50).

Definition TAB : char := 9%N.
Definition NL : char := 10%N.
Definition MINUS : char := 45%N.

(** What may stand between the marker and the digits other than the one
    space the pattern asks for: nothing, two or more blanks, a tab, a
    newline. *)
Definition misplaced (gap : str) : Prop :=
  Forall (fun c => c = SP \/ c = TAB \/ c = NL) gap /\ gap <> [SP].


(** ** Start-up: the choice of the generation model

    Lines 18-26 of [src/app.py]: the loop over [genai.list_models()] that
    keeps the first name whose lower-case form holds "gemini" and neither
    "flash" nor "vision", with every "models/" removed.  The listing is the
    list of the names in the order the service returns them.  [str.lower]
    follows the interpreter's Unicode case tables and is a parameter; on
    one-byte ASCII text it maps the letters A to Z and nothing else. *)

Definition ascii_lower (c : char) : char :=
  if ((65 <=? c) && (c <=? 90))%N then (c + 32)%N else c.

Record case_db : Type := {
  str_lower : str -> str;
  lower_ascii : forall s, ascii_str s -> str_lower s = map ascii_lower s
}.

(** The case table that lowers the letters A to Z and nothing else; it is
    used to run the choice of the model on concrete listings. *)
Definition ascii_case_db : case_db :=
  {| str_lower := map ascii_lower;
     lower_ascii := fun s _ => eq_refl |}.

(** [m in s] for two strings. *)
Definition contains (m s : str) : bool :=
  match find m s with
  | Some _ => true
  | None => false
  end.

(** [s.replace(old, new)] for a non-empty [old]: the occurrences of [old]
    are taken left to right without overlap.  [skip] counts the characters
    of a replaced occurrence that are still to be passed over. *)
Fixpoint replace_from (old new : str) (skip : nat) (s : str) : str :=
  match s with
  | [] => []
  | c :: s' =>
      match skip with
      | S k => replace_from old new k s'
      | O =>
          if prefixb old s
          then new ++ replace_from old new (length old - 1) s'
          else c :: replace_from old new 0 s'
      end
  end.

Definition replace (old new s : str) : str := replace_from old new 0 s.

Section Startup.

Variable L : case_db.

(** The condition of line 23 on one name. *)
Definition eligible (name : str) : bool :=
  let model_name := str_lower L name in
  contains (str_of "gemini") model_name
  && negb (contains (str_of "flash") model_name)
  && negb (contains (str_of "vision") model_name).

(** The value of [best_model] behind the loop; [None] is Python's [None]. *)
Fixpoint best_model (names : list str) : option str :=
  match names with
  | [] => None
  | name :: rest =>
      if eligible name
      then Some (replace (str_of "models/") [] name)
      else best_model rest
  end.

End Startup.

(** ** The request handler around the extractor

    [evaluate_argument], lines 61-145: the check of the request body, the
    call of the model, the check of its response and the reply. *)

(** The value of [request.get_json()]. *)
#[warnings="-register-all"]
Inductive json :=
| JNull
| JBool (b : bool)
| JInt (z : Z)
| JFloat (f : spec_float)
| JStr (s : str)
| JList (l : list json)
| JDict (kv : list (str * json)).  (* bindings in document order *)

Fixpoint str_eqb (a b : str) : bool :=
  match a, b with
  | [], [] => true
  | c :: a', d :: b' => N.eqb c d && str_eqb a' b'
  | _, _ => false
  end.

(** [d[k]] on a dict: of two bindings of one key the later one stands, as
    [json.loads] builds the dict. *)
Fixpoint dict_get (k : str) (kv : list (str * json)) : option json :=
  match kv with
  | [] => None
  | (k', v) :: rest =>
      match dict_get k rest with
      | Some v' => Some v'
      | None => if str_eqb k' k then Some v else None
      end
  end.

(** Python's truth value of a JSON value. *)
Definition truthy (d : json) : bool :=
  match d with
  | JNull => false
  | JBool b => b
  | JInt z => negb (Z.eqb z 0)
  | JFloat (S754_zero _) => false
  | JFloat _ => true
  | JStr s => match s with [] => false | _ :: _ => true end
  | JList l => match l with [] => false | _ :: _ => true end
  | JDict kv => match kv with [] => false | _ :: _ => true end
  end.

(** An exception that leaves the view function: lines 63-68 stand outside
    the [try]. *)
Inductive unhandled := UnhandledTypeError | UnhandledKeyError.

Inductive checked (A : Type) : Type :=
| Pass (a : A)
| Crash (e : unhandled).
Arguments Pass {A} a.
Arguments Crash {A} e.

Definition is_str (k : str) (d : json) : bool :=
  match d with
  | JStr s => str_eqb s k
  | _ => false
  end.

(** [k in d] for a string [k]: a key of a dict, an element of a list, a
    substring of a string; the other values are not iterable. *)
Definition json_contains (k : str) (d : json) : checked bool :=
  match d with
  | JDict kv =>
      Pass (match dict_get k kv with Some _ => true | None => false end)
  | JList l => Pass (existsb (is_str k) l)
  | JStr s => Pass (contains k s)
  | JNull | JBool _ | JInt _ | JFloat _ => Crash UnhandledTypeError
  end.

(** [d[k]] for a string [k]. *)
Definition json_getitem (d : json) (k : str) : checked json :=
  match d with
  | JDict kv =>
      match dict_get k kv with
      | Some v => Pass v
      | None => Crash UnhandledKeyError
      end
  | _ => Crash UnhandledTypeError
  end.

(** What the view function hands to Flask: the record for [jsonify] with
    status 200, [jsonify] of an error message with its status, or an
    exception. *)
Inductive http_reply :=
| Reply200 (body : StructuredFeedback)
| ReplyError (status : nat) (error : str)
| Unhandled (e : unhandled).

Definition no_text_or_topic : str := str_of "No text or topic provided".

(** The message of line 116; it begins with U+26A0 U+FE0F. *)
Definition blocked_message : str :=
  [9888%N; 65039%N]
    ++ str_of " AI could not generate a response due to content restrictions. Please rephrase your argument.".

(** Lines 63-68: the early reply, or [topic] and [argument]. *)
Definition read_request (data : json) : http_reply + json * json :=
  if negb (truthy data) then inl (ReplyError 400 no_text_or_topic)
  else
    match json_contains (str_of "text") data with
    | Crash e => inl (Unhandled e)
    | Pass false => inl (ReplyError 400 no_text_or_topic)
    | Pass true =>
        match json_contains (str_of "topic") data with
        | Crash e => inl (Unhandled e)
        | Pass false => inl (ReplyError 400 no_text_or_topic)
        | Pass true =>
            match json_getitem data (str_of "topic") with
            | Crash e => inl (Unhandled e)
            | Pass topic =>
                match json_getitem data (str_of "text") with
                | Crash e => inl (Unhandled e)
                | Pass argument => inr (topic, argument)
                end
            end
        end
    end.

(** The value of an expression of the vendor library, or the exception it
    raised, kept as [str(e)]. *)
Inductive attempt (A : Type) : Type :=
| Value (a : A)
| Exception (message : str).
Arguments Value {A} a.
Arguments Exception {A} message.

(** What the handler reads of the object [generate_content] returns: the
    accessors [parts] and [text], each of which may raise.  [text] is read
    twice (lines 114 and 119) and yields the same both times. *)
Record response (part : Type) : Type := {
  parts : attempt (list part);
  text : attempt str
}.
Arguments parts {part} r.
Arguments text {part} r.

Section Handler.

Variable U : unicode_db.
Variable part : Type.

(** [str(e)] for an exception raised by the interpreter. *)
Variable str_of_exn : exn -> str.

(** Lines 71-111: the prompt, an f-string of [topic] and [argument], and
    [model.generate_content(prompt)].  The prompt goes to the model only
    and has no part in the control flow of the handler. *)
Variable generate_content : json -> json -> attempt (response part).

(** Lines 113-145. *)
Definition respond (r : response part) : http_reply :=
  match parts r with
  | Exception message => ReplyError 500 message
  | Value [] => ReplyError 400 blocked_message
  | Value (_ :: _) =>
      match text r with
      | Exception message => ReplyError 500 message
      | Value [] => ReplyError 400 blocked_message
      | Value (c :: t) =>
          let ai_output := strip U (c :: t) in
          match extract U ai_output with
          | Ret body => Reply200 body
          | Raise e => ReplyError 500 (str_of_exn e)
          end
      end
  end.

Definition evaluate_argument (data : json) : http_reply :=
  match read_request data with
  | inl reply => reply
  | inr (topic, argument) =>
      match generate_content topic argument with
      | Exception message => ReplyError 500 message
      | Value r => respond r
      end
  end.

End Handler.

(** * Properties *)

(** ** A table that meets the interface *)

Lemma py_isspace_ascii c : (c < 128)%N -> py_isspace c = ascii_isspace c.
Proof.
  intros H. unfold py_isspace.
  repeat match goal with
         | |- context [(c =? ?k)%N] =>
             replace (c =? k)%N with false by (symmetry; apply N.eqb_neq; lia)
         end.
  replace (c <=? 8202)%N with true by (symmetry; apply N.leb_le; lia).
  replace (8192 <=? c)%N with false by (symmetry; apply N.leb_gt; lia).
  simpl. now rewrite !orb_false_r.
Qed.

Lemma py_todecimal_ascii c : (c < 128)%N -> py_todecimal c = ascii_todecimal c.
Proof.
  intros H. unfold py_todecimal, ascii_todecimal.
  destruct ((48 <=? c) && (c <=? 57))%N; [reflexivity|].
  replace (1632 <=? c)%N with false by (symmetry; apply N.leb_gt; lia).
  replace (65296 <=? c)%N with false by (symmetry; apply N.leb_gt; lia).
  reflexivity.
Qed.

Definition py_db : unicode_db :=
  {| Py_UNICODE_ISSPACE := py_isspace;
     Py_UNICODE_TODECIMAL := py_todecimal;
     isspace_ascii := py_isspace_ascii;
     todecimal_ascii := py_todecimal_ascii |}.

(** ** Lists and substring search *)

Lemma orelse_none_r A (x : option A) : orelse x None = x.
Proof. now destruct x. Qed.

Lemma prefixb_app m r : prefixb m (m ++ r) = true.
Proof.
  induction m as [|c m IH]; simpl; [reflexivity|].
  now rewrite N.eqb_refl, IH.
Qed.

Lemma prefixb_true m s : prefixb m s = true -> s = m ++ skipn (length m) s.
Proof.
  revert s. induction m as [|c m IH]; intros [|d s] H; simpl in *;
    try reflexivity; try discriminate.
  apply andb_true_iff in H. destruct H as [Hc Hm].
  apply N.eqb_eq in Hc. subst d. f_equal. now apply IH.
Qed.

Lemma prefixb_iff m s : prefixb m s = true <-> exists r, s = m ++ r.
Proof.
  split.
  - intros H. eexists. now apply prefixb_true.
  - intros [r ->]. apply prefixb_app.
Qed.

Lemma skipn_app_length (a b : str) : skipn (length a) (a ++ b) = b.
Proof. induction a; simpl; auto. Qed.

Lemma firstn_app_length (a b : str) : firstn (length a) (a ++ b) = a.
Proof. induction a; simpl; [now destruct b|]. now f_equal. Qed.

Lemma firstn_length_diff (a b : str) :
  firstn (length (a ++ b) - length b) (a ++ b) = a.
Proof.
  rewrite length_app. replace (length a + length b - length b) with (length a) by lia.
  apply firstn_app_length.
Qed.

Lemma find_eq m s :
  find m s =
  if prefixb m s then Some 0
  else match s with
       | [] => None
       | _ :: s' => option_map S (find m s')
       end.
Proof. now destruct s. Qed.

Lemma find_some m s i :
  find m s = Some i ->
  s = firstn i s ++ m ++ skipn (i + length m) s /\ length (firstn i s) = i.
Proof.
  revert i. induction s as [|c s IH]; intros i; simpl.
  - destruct (prefixb m []) eqn:E; [|discriminate].
    intros [= <-]. simpl. split; [|reflexivity].
    now apply prefixb_true in E.
  - destruct (prefixb m (c :: s)) eqn:E.
    + intros [= <-]. simpl. split; [|reflexivity].
      now apply prefixb_true in E.
    + destruct (find m s) as [j|] eqn:F; simpl; [|discriminate].
      intros [= <-]. destruct (IH j eq_refl) as [H1 H2].
      simpl. split; [now f_equal | now f_equal].
Qed.

(** [find] returns the first occurrence: no occurrence starts earlier. *)
Lemma find_first m s i :
  find m s = Some i ->
  forall j, j < i -> prefixb m (skipn j s) = false.
Proof.
  revert i. induction s as [|c s IH]; intros i; simpl.
  - destruct (prefixb m []); [|discriminate]. intros [= <-] j Hj. lia.
  - destruct (prefixb m (c :: s)) eqn:E.
    + intros [= <-] j Hj. lia.
    + destruct (find m s) as [k|] eqn:F; simpl; [|discriminate].
      intros [= <-] [|j] Hj; simpl; [exact E|].
      apply (IH k eq_refl). lia.
Qed.

Lemma find_none m s :
  find m s = None -> forall p q, s <> p ++ m ++ q.
Proof.
  induction s as [|c s IH]; simpl.
  - destruct (prefixb m []) eqn:E; [discriminate|].
    intros _ p q H. destruct p; simpl in H.
    + rewrite H, prefixb_app in E. discriminate.
    + discriminate.
  - destruct (prefixb m (c :: s)) eqn:E; [discriminate|].
    destruct (find m s) eqn:F; simpl; [discriminate|].
    intros _ [|d p] q H; simpl in H.
    + rewrite H, prefixb_app in E. discriminate.
    + injection H as -> H. now apply (IH eq_refl p q).
Qed.

Lemma find_app_absent m p q :
  find m (p ++ m ++ q) = Some (length p) ->
  find m (p ++ m ++ q) = Some (length p) /\
  skipn (length p + length m) (p ++ m ++ q) = q /\
  firstn (length p) (p ++ m ++ q) = p.
Proof.
  intros H. split; [exact H|]. split.
  - rewrite <- length_app, app_assoc. apply skipn_app_length.
  - apply firstn_app_length.
Qed.

(** ** The matcher on the shapes the four patterns are made of *)

Section MatcherFacts.

Variable U : unicode_db.

Lemma lstrip_skip s : lstrip U s = skip U CSpace s.
Proof. induction s as [|c s IH]; simpl; [reflexivity|]. now rewrite IH. Qed.

Lemma skip_decimal_skip s : skip_decimal U s = skip U CDigit s.
Proof. induction s as [|c s IH]; simpl; [reflexivity|]. now rewrite IH. Qed.

Lemma skip_any s : skip U CAny s = [].
Proof. induction s; simpl; auto. Qed.

(** A literal matches exactly when it is a prefix of the input. *)
Lemma exec_Lit A m s g (k : str -> option str -> option A) :
  exec U (Lit m) s g k =
  if prefixb m s then k (skipn (length m) s) g else None.
Proof.
  revert s. induction m as [|c m IH]; intros s; simpl; [reflexivity|].
  destruct s as [|d s]; [reflexivity|].
  destruct (N.eqb d c); simpl; [apply IH | reflexivity].
Qed.

Lemma star_ext A greedy cs s (k k' : str -> option A) :
  (forall s', k s' = k' s') ->
  star U greedy cs s k = star U greedy cs s k'.
Proof.
  intros H. induction s as [|c s IH]; simpl; [apply H|].
  now rewrite IH, H.
Qed.

(** A greedy repetition whose continuation accepts the longest run stops
    there. *)
Lemma star_greedy_ok A cs s (k : str -> option A) r :
  k (skip U cs s) = Some r -> star U true cs s k = Some r.
Proof.
  induction s as [|c s IH]; simpl; [auto|].
  destruct (in_charset U cs c); [|auto].
  intros H. now rewrite (IH H).
Qed.

(** A greedy repetition whose continuation refuses every input that
    begins with a character of the class never gives a character back. *)
Lemma star_greedy_back A cs s (k : str -> option A) :
  (forall c s', in_charset U cs c = true -> k (c :: s') = None) ->
  star U true cs s k = k (skip U cs s).
Proof.
  intros Hk. induction s as [|c s IH]; simpl; [reflexivity|].
  destruct (in_charset U cs c) eqn:E; [|reflexivity].
  now rewrite IH, (Hk c s E), orelse_none_r.
Qed.

Lemma upto_nil t : upto t [] = [].
Proof. unfold upto. simpl. now destruct (prefixb t []). Qed.

Lemma upto_cons t c s :
  upto t (c :: s) = if prefixb t (c :: s) then [] else c :: upto t s.
Proof.
  unfold upto. simpl. destruct (prefixb t (c :: s)); [reflexivity|].
  now destruct (find t s).
Qed.

(** The lazy [.*?] in front of the lookahead takes the text up to the
    first place where the lookahead holds. *)
Lemma star_lazy_span A (F : str -> A) t s0 pre s :
  s0 = pre ++ s ->
  star U false CAny s
       (fun s' => if stops t s'
                  then Some (F (firstn (length s0 - length s') s0))
                  else None)
  = Some (F (pre ++ upto t s)).
Proof.
  revert pre. induction s as [|c s IH]; intros pre ->.
  - simpl. unfold stops. rewrite orb_true_r, upto_nil.
    now rewrite Nat.sub_0_r, firstn_all.
  - cbn [star in_charset]. rewrite upto_cons.
    unfold stops at 1. rewrite orb_false_r.
    destruct (prefixb t (c :: s)) eqn:E.
    + cbn [orelse]. now rewrite firstn_length_diff, app_nil_r.
    + cbn [orelse].
      rewrite (IH (pre ++ [c])); [|now rewrite <- app_assoc].
      now rewrite <- app_assoc.
Qed.

(** The reasoning and feedback patterns at one start position. *)
Lemma re_match_span m t s :
  re_match U
    (Cat (Lit m)
         (Cat (Star CSpace)
              (Cat (Group (StarLazy CAny))
                   (Lookahead (Alt (Lit t) EndOfString))))) s
  = if prefixb m s
    then Some (mk (upto t (lstrip U (skipn (length m) s))))
    else None.
Proof.
  unfold re_match. cbn [exec]. rewrite exec_Lit.
  destruct (prefixb m s); [|reflexivity].
  apply star_greedy_ok. rewrite <- lstrip_skip.
  set (r := lstrip U (skipn (length m) s)).
  transitivity
    (star U false CAny r
          (fun s' => if stops t s'
                     then Some (mk (firstn (length r - length s') r))
                     else None)).
  - apply star_ext. intros s'. rewrite exec_Lit. unfold stops.
    destruct (prefixb t s'); [reflexivity|]. now destruct s'.
  - apply (star_lazy_span _ mk t r [] r). reflexivity.
Qed.

(** The improved-argument pattern at one start position. *)
Lemma re_match_tail m s :
  re_match U (Cat (Lit m) (Cat (Star CSpace) (Group (Star CAny)))) s
  = if prefixb m s
    then Some (mk (lstrip U (skipn (length m) s)))
    else None.
Proof.
  unfold re_match. cbn [exec]. rewrite exec_Lit.
  destruct (prefixb m s); [|reflexivity].
  apply star_greedy_ok. rewrite <- lstrip_skip.
  apply star_greedy_ok. rewrite skip_any.
  now rewrite Nat.sub_0_r, firstn_all.
Qed.

Lemma isdecimal_DOT : isdecimal U DOT = false.
Proof.
  unfold isdecimal. now rewrite todecimal_ascii.
Qed.

Lemma decimal_not_DOT c : isdecimal U c = true -> N.eqb c DOT = false.
Proof.
  intros H. apply N.eqb_neq. intros ->.
  rewrite isdecimal_DOT in H. discriminate.
Qed.

Lemma take_skip_decimal s : s = take_decimal U s ++ skip_decimal U s.
Proof.
  induction s as [|c s IH]; simpl; [reflexivity|].
  destruct (isdecimal U c); simpl; [now f_equal | reflexivity].
Qed.

(** Group 1 of the score pattern, [\d+\.\d+|\d+], at the front of [t]. *)
Lemma exec_score_group t :
  exec U (Group (Alt (Cat (Plus CDigit) (Cat (One (CLit DOT)) (Plus CDigit)))
                     (Plus CDigit)))
       t None (fun _ g => Some {| group1 := g |})
  = option_map mk (score_token U t).
Proof.
  unfold Plus, score_token. cbn [exec in_charset].
  destruct t as [|c t']; [reflexivity|].
  cbn [take_decimal skip_decimal].
  destruct (isdecimal U c) eqn:Ec; [|reflexivity].
  rewrite star_greedy_back.
  2:{ intros d s' Hd. cbn [in_charset] in Hd.
      now rewrite (decimal_not_DOT d Hd). }
  rewrite <- skip_decimal_skip.
  assert (Hint : star U true CDigit t'
                   (fun s' => Some {| group1 :=
                      Some (firstn (length (c :: t') - length s') (c :: t')) |})
                 = Some (mk (c :: take_decimal U t'))).
  { apply star_greedy_ok. rewrite <- skip_decimal_skip. unfold mk.
    do 3 f_equal.
    rewrite (take_skip_decimal t') at 1 3.
    apply (firstn_length_diff (c :: take_decimal U t')). }
  destruct (skip_decimal U t') as [|d s2] eqn:Es; cbn [orelse option_map].
  - exact Hint.
  - destruct (N.eqb d DOT) eqn:Ed; [|exact Hint].
    destruct s2 as [|e s3]; [exact Hint|].
    cbn [take_decimal].
    destruct (isdecimal U e) eqn:Ee; [|exact Hint].
    cbn [orelse option_map].
    erewrite star_greedy_ok; [reflexivity|].
    rewrite <- skip_decimal_skip. unfold mk. do 3 f_equal.
    apply N.eqb_eq in Ed. subst d.
    assert (Ht : c :: t' =
                 ((c :: take_decimal U t') ++ DOT :: e :: take_decimal U s3)
                   ++ skip_decimal U s3).
    { rewrite (take_skip_decimal t') at 1. rewrite Es.
      rewrite (take_skip_decimal s3) at 1.
      simpl. now rewrite <- !app_assoc. }
    rewrite Ht. apply firstn_length_diff.
Qed.

Lemma prefixb_snoc m c s :
  prefixb (m ++ [c]) s =
  prefixb m s &&
  match skipn (length m) s with
  | d :: _ => N.eqb d c
  | [] => false
  end.
Proof.
  revert s. induction m as [|a m IH]; intros [|d s]; simpl; try reflexivity.
  - now rewrite andb_true_r.
  - rewrite IH. now rewrite andb_assoc.
Qed.

(** The score pattern at one start position. *)
Lemma re_match_score s :
  re_match U rationality_score_re s
  = if prefixb (rationality_score_marker ++ [SP]) s
    then option_map mk
           (score_token U (skipn (length rationality_score_marker + 1) s))
    else None.
Proof.
  unfold re_match, rationality_score_re.
  cbn [exec]. rewrite exec_Lit, prefixb_snoc.
  destruct (prefixb rationality_score_marker s); [|reflexivity].
  cbn [andb].
  replace (length rationality_score_marker + 1)
    with (1 + length rationality_score_marker) by lia.
  rewrite <- skipn_skipn.
  destruct (skipn (length rationality_score_marker) s) as [|d t];
    [reflexivity|].
  cbn [in_charset skipn]. destruct (N.eqb d SP); [|reflexivity].
  apply exec_score_group.
Qed.

(** ** [re.search] on the four patterns *)

Lemma re_search_marker r m (F : str -> match_object) :
  (forall s, re_match U r s =
             if prefixb m s then Some (F (skipn (length m) s)) else None) ->
  forall s, re_search U r s = option_map F (after m s).
Proof.
  intros Hr s. unfold after.
  induction s as [|c s IH]; cbn [re_search]; rewrite Hr, find_eq.
  - now destruct (prefixb m []).
  - destruct (prefixb m (c :: s)); [reflexivity|].
    rewrite IH. now destruct (find m s).
Qed.

Lemma re_search_reasoning s :
  re_search U reasoning_re s =
  option_map (fun r => mk (upto feedback_marker (lstrip U r)))
             (after reasoning_marker s).
Proof.
  apply (re_search_marker reasoning_re reasoning_marker
           (fun r => mk (upto feedback_marker (lstrip U r)))).
  intros s'. apply re_match_span.
Qed.

Lemma re_search_feedback s :
  re_search U feedback_re s =
  option_map (fun r => mk (upto improved_argument_marker (lstrip U r)))
             (after feedback_marker s).
Proof.
  apply (re_search_marker feedback_re feedback_marker
           (fun r => mk (upto improved_argument_marker (lstrip U r)))).
  intros s'. apply re_match_span.
Qed.

Lemma re_search_improved s :
  re_search U improved_argument_re s =
  option_map (fun r => mk (lstrip U r)) (after improved_argument_marker s).
Proof.
  apply (re_search_marker improved_argument_re improved_argument_marker
           (fun r => mk (lstrip U r))).
  intros s'. apply re_match_tail.
Qed.

Lemma re_search_score s :
  re_search U rationality_score_re s =
  option_map mk (find_score_token U s).
Proof.
  induction s as [|c s IH]; cbn [re_search find_score_token];
    rewrite re_match_score.
  - destruct (prefixb (rationality_score_marker ++ [SP]) []);
      [|reflexivity].
    now destruct (score_token U _).
  - destruct (prefixb (rationality_score_marker ++ [SP]) (c :: s)).
    + destruct (score_token U _); [reflexivity|exact IH].
    + exact IH.
Qed.

End MatcherFacts.

(** ** Binary64 rounding of a non-negative ratio is non-negative *)

Lemma iter_pos_inv A (P : A -> Prop) (f : A -> A) :
  (forall x, P x -> P (f x)) ->
  forall p x, P x -> P (iter_pos f p x).
Proof.
  intros Hf. induction p as [p IH|p IH|]; intros x Hx; simpl; auto.
Qed.

Lemma shr_1_nonneg mrs : (0 <= shr_m mrs)%Z -> (0 <= shr_m (shr_1 mrs))%Z.
Proof.
  destruct mrs as [m r s]. simpl.
  destruct m as [|[p|p|]|[p|p|]]; simpl; lia.
Qed.

Lemma shr_fexp_nonneg m e l :
  (0 <= m)%Z -> (0 <= shr_m (fst (shr_fexp prec emax m e l)))%Z.
Proof.
  intros Hm. unfold shr_fexp, shr.
  assert (H0 : (0 <= shr_m (shr_record_of_loc m l))%Z).
  { destruct l as [|[]]; simpl; exact Hm. }
  destruct (fexp prec emax (Zdigits2 m + e) - e)%Z; simpl; try exact H0.
  apply (iter_pos_inv _ (fun x => (0 <= shr_m x)%Z)); [apply shr_1_nonneg|exact H0].
Qed.

Lemma round_nearest_even_nonneg m l :
  (0 <= m)%Z -> (0 <= round_nearest_even m l)%Z.
Proof.
  intros Hm. destruct l as [|[]]; simpl; try lia.
  destruct (Z.even m); lia.
Qed.

Lemma binary_round_aux_nonneg m e l :
  (0 <= m)%Z -> nonneg_float (binary_round_aux prec emax false m e l).
Proof.
  intros Hm. unfold binary_round_aux.
  pose proof (shr_fexp_nonneg m e l Hm) as H1.
  destruct (shr_fexp prec emax m e l) as [mrs' e'].
  cbn [fst] in H1.
  pose proof (shr_fexp_nonneg _ e' loc_Exact
                (round_nearest_even_nonneg _ (loc_of_shr_record mrs') H1)) as H2.
  destruct (shr_fexp prec emax _ e' loc_Exact) as [mrs'' e''].
  cbn [fst] in H2.
  destruct (shr_m mrs'') as [|p|p]; [reflexivity| |lia].
  destruct (e'' <=? emax - prec)%Z; reflexivity.
Qed.

Lemma binary64_of_decimal_nonneg n k : nonneg_float (binary64_of_decimal n k).
Proof.
  unfold binary64_of_decimal.
  assert (Hk : exists p, (10 ^ N.of_nat k)%N = Npos p).
  { destruct (10 ^ N.of_nat k)%N eqn:E; [|eauto].
    exfalso. revert E. apply N.pow_nonzero. discriminate. }
  destruct Hk as [p ->]. destruct n as [|q]; [reflexivity|].
  cbn [SF_of_N SFdiv xorb].
  destruct (SFdiv_core_binary prec emax (Z.pos q) 0 (Z.pos p) 0)
    as [[mz ez] lz] eqn:E.
  apply binary_round_aux_nonneg.
  unfold SFdiv_core_binary in E.
  set (m' := match (0 - 0 - _)%Z with
             | Z0 => Z.pos q
             | Z.pos _ => Z.shiftl (Z.pos q) _
             | Z.neg _ => 0%Z
             end) in E.
  assert (Hm' : (0 <= m')%Z).
  { subst m'. destruct (0 - 0 - _)%Z; try lia.
    apply Z.shiftl_nonneg. lia. }
  pose proof (Z.div_pos m' (Z.pos p) Hm' eq_refl) as Hq.
  unfold Z.div in Hq.
  destruct (Z.div_eucl m' (Z.pos p)) as [q0 r0].
  injection E as <- _ _. exact Hq.
Qed.

(** ** [float] on the tokens of the score pattern *)

Section FloatFacts.

Variable U : unicode_db.

Lemma span_decimal_app ip r :
  Forall (decimal U) ip ->
  match r with d :: _ => isdecimal U d = false | [] => True end ->
  span_decimal U (ip ++ r) = (fst (span_decimal U ip), r).
Proof.
  intros Hip Hr. induction Hip as [|c ip Hc _ IH]; simpl.
  - destruct r as [|d r]; [reflexivity|].
    unfold isdecimal in Hr.
    simpl. now destruct (Py_UNICODE_TODECIMAL U d).
  - unfold decimal, isdecimal in Hc.
    destruct (Py_UNICODE_TODECIMAL U c); [|discriminate].
    rewrite IH. now destruct (span_decimal U ip).
Qed.

Lemma span_decimal_all ip :
  Forall (decimal U) ip ->
  span_decimal U ip = (fst (span_decimal U ip), []).
Proof.
  intros H. rewrite <- (app_nil_r ip) at 1.
  now apply span_decimal_app.
Qed.

Lemma span_decimal_nonempty ip :
  Forall (decimal U) ip -> ip <> [] -> fst (span_decimal U ip) <> [].
Proof.
  intros [|c ip' Hc _] Hne; [congruence|]. simpl.
  unfold decimal, isdecimal in Hc.
  destruct (Py_UNICODE_TODECIMAL U c); [|discriminate].
  now destruct (span_decimal U ip').
Qed.

(** [float] accepts every numeral, and the value is not negative. *)
Lemma float_numeral tok :
  numeral U tok -> exists v, float_ U tok = Ret v /\ nonneg_float v.
Proof.
  intros [ip Hne Hip | ip fp Hne Hfne Hip Hfp]; unfold float_.
  - rewrite (span_decimal_all ip Hip).
    pose proof (span_decimal_nonempty ip Hip Hne) as Hd.
    destruct (fst (span_decimal U ip)) as [|d ds]; [congruence|].
    eexists. split; [reflexivity|apply binary64_of_decimal_nonneg].
  - rewrite (span_decimal_app ip (DOT :: fp) Hip (isdecimal_DOT U)).
    pose proof (span_decimal_nonempty ip Hip Hne) as Hd.
    destruct (fst (span_decimal U ip)) as [|d ds]; [congruence|].
    rewrite N.eqb_refl.
    rewrite (span_decimal_all fp Hfp).
    pose proof (span_decimal_nonempty fp Hfp Hfne) as Hf.
    destruct (fst (span_decimal U fp)) as [|e es]; [congruence|].
    eexists. split; [reflexivity|apply binary64_of_decimal_nonneg].
Qed.

Lemma take_decimal_Forall s : Forall (decimal U) (take_decimal U s).
Proof.
  induction s as [|c s IH]; simpl; [constructor|].
  destruct (isdecimal U c) eqn:E; constructor; assumption.
Qed.

(** The score pattern captures numerals only. *)
Lemma score_token_numeral t tok :
  score_token U t = Some tok -> numeral U tok.
Proof.
  unfold score_token.
  pose proof (take_decimal_Forall t) as Hip.
  destruct (take_decimal U t) as [|c ip] eqn:E; [discriminate|].
  assert (Hint : numeral U (c :: ip)) by (now constructor).
  destruct (skip_decimal U t) as [|d r]; [now intros [= <-]|].
  destruct (N.eqb d DOT); [|now intros [= <-]].
  pose proof (take_decimal_Forall r) as Hfp.
  destruct (take_decimal U r) as [|e fp]; [now intros [= <-]|].
  intros [= <-]. now apply (numeral_frac U (c :: ip) (e :: fp)).
Qed.

Lemma find_score_token_numeral s tok :
  find_score_token U s = Some tok -> numeral U tok.
Proof.
  induction s as [|c s IH]; cbn [find_score_token].
  - destruct (prefixb _ []); [|discriminate].
    destruct (score_token U _) eqn:E; [|discriminate].
    intros [= <-]. eapply score_token_numeral; eassumption.
  - destruct (prefixb _ (c :: s)).
    + destruct (score_token U _) eqn:E; [|exact IH].
      intros [= <-]. eapply score_token_numeral; eassumption.
    + exact IH.
Qed.

(** The score is always available, and never negative. *)
Lemma score_field_total s :
  exists v, score_field U s = Ret v /\ nonneg_float v.
Proof.
  unfold score_field.
  destruct (find_score_token U s) as [tok|] eqn:E.
  - apply float_numeral. eapply find_score_token_numeral; eassumption.
  - eexists. split; reflexivity.
Qed.

End FloatFacts.

(** ** The extractor is the substring search of the specification *)

Section ExtractorFacts.

Variable U : unicode_db.

Lemma lstrip_idem s : lstrip U (lstrip U s) = lstrip U s.
Proof.
  induction s as [|c s IH]; simpl; [reflexivity|].
  destruct (isspace U c) eqn:E; [exact IH|]. simpl. now rewrite E.
Qed.

Lemma strip_lstrip s : strip U (lstrip U s) = strip U s.
Proof. unfold strip. now rewrite lstrip_idem. Qed.

Lemma prefixb_head_neq c t d s : d <> c -> prefixb (c :: t) (d :: s) = false.
Proof. intros H. simpl. apply N.eqb_neq in H. now rewrite H. Qed.

(** Skipping leading white space commutes with cutting at a terminator
    that does not begin with white space. *)
Lemma upto_lstrip c t s :
  isspace U c = false ->
  upto (c :: t) (lstrip U s) = lstrip U (upto (c :: t) s).
Proof.
  intros Hc. induction s as [|d s IH].
  - simpl. now rewrite upto_nil.
  - cbn [lstrip]. rewrite (upto_cons (c :: t) d s).
    destruct (isspace U d) eqn:Ed.
    + rewrite prefixb_head_neq by congruence.
      cbn [lstrip]. now rewrite Ed.
    + rewrite upto_cons.
      destruct (prefixb (c :: t) (d :: s)); [reflexivity|].
      cbn [lstrip]. now rewrite Ed.
Qed.

Lemma star_not_space : isspace U STAR = false.
Proof. unfold isspace. now rewrite isspace_ascii. Qed.

Lemma strip_upto_feedback r :
  strip U (upto feedback_marker (lstrip U r)) = strip U (upto feedback_marker r).
Proof.
  change feedback_marker with (STAR :: tl feedback_marker).
  now rewrite (upto_lstrip _ _ _ star_not_space), strip_lstrip.
Qed.

Lemma strip_upto_improved r :
  strip U (upto improved_argument_marker (lstrip U r))
  = strip U (upto improved_argument_marker r).
Proof.
  change improved_argument_marker with (STAR :: tl improved_argument_marker).
  now rewrite (upto_lstrip _ _ _ star_not_space), strip_lstrip.
Qed.

(** Each call of [re.search] followed by its conditional expression is
    the corresponding step of the specification's algorithm. *)
Theorem extract_spec s :
  extract U s =
  (v <- score_field U s ;;
   Ret {| rationality_score := v;
          reason_for_score :=
            text_field U reasoning_marker (Some feedback_marker)
                       default_reason s;
          feedback :=
            text_field U feedback_marker (Some improved_argument_marker)
                       default_feedback s;
          improved_argument :=
            text_field U improved_argument_marker None default_improved s |}).
Proof.
  unfold extract.
  rewrite re_search_score, re_search_reasoning, re_search_feedback,
    re_search_improved.
  unfold score_field, text_field.
  destruct (find_score_token U s) as [tok|]; cbn [option_map];
    [change (float_group1 U (mk tok)) with (float_ U tok)|].
  - destruct (float_ U tok) as [v|e]; [|reflexivity].
    cbn [bind].
    destruct (after reasoning_marker s), (after feedback_marker s),
      (after improved_argument_marker s);
      cbn [option_map bind strip_group1 mk group1];
      now rewrite ?strip_upto_feedback, ?strip_upto_improved, ?strip_lstrip.
  - cbn [bind].
    destruct (after reasoning_marker s), (after feedback_marker s),
      (after improved_argument_marker s);
      cbn [option_map bind strip_group1 mk group1];
      now rewrite ?strip_upto_feedback, ?strip_upto_improved, ?strip_lstrip.
Qed.

Lemma prefixb_app_l m n s : prefixb (m ++ n) s = true -> prefixb m s = true.
Proof.
  intros H. apply prefixb_iff in H. destruct H as [r ->].
  rewrite <- app_assoc. apply prefixb_app.
Qed.

(** A score token is only ever found behind the score marker. *)
Lemma find_score_token_marker s :
  find rationality_score_marker s = None -> find_score_token U s = None.
Proof.
  induction s as [|c s IH]; rewrite find_eq; cbn [find_score_token].
  - destruct (prefixb (rationality_score_marker ++ [SP]) []) eqn:E;
      [|reflexivity].
    now rewrite (prefixb_app_l _ _ _ E).
  - destruct (prefixb (rationality_score_marker ++ [SP]) (c :: s)) eqn:E.
    + now rewrite (prefixb_app_l _ _ _ E).
    + destruct (prefixb rationality_score_marker (c :: s)); [discriminate|].
      destruct (find rationality_score_marker s); [discriminate|].
      intros _. now apply IH.
Qed.

End ExtractorFacts.

(** ** One-byte inputs do not depend on the Unicode tables *)

Section AsciiInputs.

Variables U V : unicode_db.

Lemma isspace_ascii_eq c : (c < 128)%N -> isspace U c = isspace V c.
Proof. intros H. unfold isspace. now rewrite !isspace_ascii. Qed.

Lemma isdecimal_ascii_eq c : (c < 128)%N -> isdecimal U c = isdecimal V c.
Proof. intros H. unfold isdecimal. now rewrite !todecimal_ascii. Qed.

Lemma ascii_firstn n s : ascii_str s -> ascii_str (firstn n s).
Proof.
  intros H. rewrite <- (firstn_skipn n s) in H.
  now apply Forall_app in H.
Qed.

Lemma ascii_skipn n s : ascii_str s -> ascii_str (skipn n s).
Proof.
  intros H. rewrite <- (firstn_skipn n s) in H.
  now apply Forall_app in H.
Qed.

Lemma lstrip_ascii s : ascii_str s -> lstrip U s = lstrip V s.
Proof.
  induction 1 as [|c s Hc _ IH]; simpl; [reflexivity|].
  now rewrite (isspace_ascii_eq c Hc), IH.
Qed.

Lemma ascii_lstrip s : ascii_str s -> ascii_str (lstrip V s).
Proof.
  induction 1 as [|c s Hc Hs IH]; simpl; [constructor|].
  destruct (isspace V c); [exact IH | now constructor].
Qed.

Lemma strip_ascii s : ascii_str s -> strip U s = strip V s.
Proof.
  intros H. unfold strip, rstrip.
  rewrite (lstrip_ascii s H). f_equal.
  apply lstrip_ascii. apply Forall_rev. now apply ascii_lstrip.
Qed.

Lemma ascii_upto t s : ascii_str s -> ascii_str (upto t s).
Proof.
  intros H. unfold upto. destruct (find t s); [now apply ascii_firstn|exact H].
Qed.

Lemma text_field_ascii m t d s :
  ascii_str s -> text_field U m t d s = text_field V m t d s.
Proof.
  intros H. unfold text_field, after.
  destruct (find m s) as [i|]; [|reflexivity].
  apply strip_ascii. destruct t; [apply ascii_upto|]; now apply ascii_skipn.
Qed.

Lemma take_decimal_ascii s :
  ascii_str s -> take_decimal U s = take_decimal V s.
Proof.
  induction 1 as [|c s Hc _ IH]; simpl; [reflexivity|].
  now rewrite (isdecimal_ascii_eq c Hc), IH.
Qed.

Lemma skip_decimal_ascii s :
  ascii_str s -> skip_decimal U s = skip_decimal V s.
Proof.
  induction 1 as [|c s Hc _ IH]; simpl; [reflexivity|].
  now rewrite (isdecimal_ascii_eq c Hc), IH.
Qed.

Lemma ascii_skip_decimal s : ascii_str s -> ascii_str (skip_decimal V s).
Proof.
  induction 1 as [|c s Hc Hs IH]; simpl; [constructor|].
  destruct (isdecimal V c); [exact IH | now constructor].
Qed.

Lemma ascii_take_decimal s : ascii_str s -> ascii_str (take_decimal V s).
Proof.
  induction 1 as [|c s Hc Hs IH]; simpl; [constructor|].
  destruct (isdecimal V c); now constructor.
Qed.

Lemma span_decimal_ascii s :
  ascii_str s -> span_decimal U s = span_decimal V s.
Proof.
  induction 1 as [|c s Hc _ IH]; simpl; [reflexivity|].
  now rewrite !(todecimal_ascii _ c Hc), IH.
Qed.

Lemma ascii_span_decimal s : ascii_str s -> ascii_str (snd (span_decimal V s)).
Proof.
  induction 1 as [|c s Hc Hs IH]; simpl; [constructor|].
  destruct (Py_UNICODE_TODECIMAL V c); [|now constructor].
  now destruct (span_decimal V s).
Qed.

Lemma float_ascii s : ascii_str s -> float_ U s = float_ V s.
Proof.
  intros H. unfold float_. rewrite (span_decimal_ascii s H).
  pose proof (ascii_span_decimal s H) as Hr.
  destruct (span_decimal V s) as [ip [|c r]]; [reflexivity|].
  cbn [snd] in Hr. inversion Hr as [|? ? _ Hr']; subst.
  now rewrite (span_decimal_ascii r Hr').
Qed.

Lemma score_token_ascii t :
  ascii_str t ->
  score_token U t = score_token V t /\
  forall tok, score_token V t = Some tok -> ascii_str tok.
Proof.
  intros H. unfold score_token.
  rewrite (take_decimal_ascii t H), (skip_decimal_ascii t H).
  pose proof (ascii_take_decimal t H) as Hip.
  pose proof (ascii_skip_decimal t H) as Hr.
  destruct (take_decimal V t) as [|c ip]; [split; [reflexivity|discriminate]|].
  destruct (skip_decimal V t) as [|d r];
    [split; [reflexivity|now intros tok [= <-]]|].
  inversion Hr as [|? ? Hd Hr']; subst.
  rewrite (take_decimal_ascii r Hr').
  pose proof (ascii_take_decimal r Hr') as Hfp.
  destruct (N.eqb d DOT); [|split; [reflexivity|now intros tok [= <-]]].
  destruct (take_decimal V r) as [|e fp];
    [split; [reflexivity|now intros tok [= <-]]|].
  split; [reflexivity|]. intros tok [= <-].
  apply (proj2 (Forall_app _ (c :: ip) (DOT :: e :: fp))).
  split; [exact Hip|]. now constructor.
Qed.

Lemma score_field_ascii s :
  ascii_str s -> score_field U s = score_field V s.
Proof.
  unfold score_field.
  induction 1 as [|c s Hc Hs IH]; cbn [find_score_token].
  - reflexivity.
  - destruct (prefixb (rationality_score_marker ++ [SP]) (c :: s));
      [|exact IH].
    assert (Ha : ascii_str
                   (skipn (length rationality_score_marker + 1) (c :: s)))
      by (apply ascii_skipn; now constructor).
    destruct (score_token_ascii _ Ha) as [-> Ht].
    destruct (score_token V _) as [tok|]; [|exact IH].
    apply float_ascii. now apply Ht.
Qed.

Theorem extract_ascii s : ascii_str s -> extract U s = extract V s.
Proof.
  intros H. rewrite !extract_spec.
  rewrite (score_field_ascii s H).
  now rewrite !(text_field_ascii _ _ _ s H).
Qed.

End AsciiInputs.

Lemma ascii_check s : forallb (fun c => (c <? 128)%N) s = true -> ascii_str s.
Proof.
  intros H. apply Forall_forall. intros c Hc.
  apply N.ltb_lt. revert c Hc. now apply forallb_forall.
Qed.

(** Evaluate the extractor on a literal one-byte input. *)
Ltac run_extract :=
  rewrite (extract_ascii _ py_db) by (apply ascii_check; vm_compute; reflexivity);
  vm_compute; reflexivity.

(** ** Occurrences of a marker *)

Lemma find_absent m s : ~ occurs m s -> find m s = None.
Proof.
  intros H. destruct (find m s) as [i|] eqn:E; [|reflexivity].
  exfalso. apply H. destruct (find_some m s i E) as [Hs _].
  now exists (firstn i s), (skipn (i + length m) s).
Qed.

(** ** Numerals in front of the score pattern *)

Section TokenFacts.

Variable U : unicode_db.

Lemma take_decimal_app a r :
  Forall (decimal U) a -> take_decimal U (a ++ r) = a ++ take_decimal U r.
Proof.
  induction 1 as [|c a Hc _ IH]; simpl; [reflexivity|].
  unfold decimal in Hc. now rewrite Hc, IH.
Qed.

Lemma skip_decimal_app a r :
  Forall (decimal U) a -> skip_decimal U (a ++ r) = skip_decimal U r.
Proof.
  induction 1 as [|c a Hc _ IH]; simpl; [reflexivity|].
  unfold decimal in Hc. now rewrite Hc, IH.
Qed.

Lemma take_decimal_stop r : head_not_decimal U r -> take_decimal U r = [].
Proof. destruct r as [|d r]; simpl; [reflexivity|]. now intros ->. Qed.

Lemma skip_decimal_stop r : head_not_decimal U r -> skip_decimal U r = r.
Proof. destruct r as [|d r]; simpl; [reflexivity|]. now intros ->. Qed.

Lemma ends_numeral_head tok y : ends_numeral U tok y -> head_not_decimal U y.
Proof. destruct y as [|c y]; simpl; [reflexivity|]. now intros [H _]. Qed.

(** A numeral that the following text does not continue is the token the
    pattern captures. *)
Lemma score_token_at tok y :
  numeral U tok -> ends_numeral U tok y ->
  score_token U (tok ++ y) = Some tok.
Proof.
  intros [ip Hne Hip | ip fp Hne Hfne Hip Hfp] Hy; unfold score_token.
  - pose proof (ends_numeral_head _ _ Hy) as Hh.
    rewrite (take_decimal_app ip y Hip), (take_decimal_stop y Hh), app_nil_r.
    rewrite (skip_decimal_app ip y Hip), (skip_decimal_stop y Hh).
    destruct ip as [|c ip]; [congruence|].
    destruct y as [|d r]; [reflexivity|].
    destruct (N.eqb d DOT) eqn:Ed; [|reflexivity].
    apply N.eqb_eq in Ed. destruct Hy as [_ Hy].
    specialize (Hy Ed Hip).
    now rewrite (take_decimal_stop r Hy).
  - pose proof (ends_numeral_head _ _ Hy) as Hh.
    rewrite <- app_assoc. cbn [app].
    rewrite (take_decimal_app ip _ Hip), (skip_decimal_app ip _ Hip).
    cbn [take_decimal skip_decimal]. rewrite (isdecimal_DOT U), app_nil_r.
    destruct ip as [|c ip]; [congruence|].
    rewrite N.eqb_refl.
    rewrite (take_decimal_app fp y Hfp), (take_decimal_stop y Hh), app_nil_r.
    destruct fp as [|e fp]; [congruence|reflexivity].
Qed.

Lemma isdecimal_STAR : isdecimal U STAR = false.
Proof. unfold isdecimal. now rewrite todecimal_ascii. Qed.

Lemma ends_numeral_app tok x z :
  ends_numeral U tok x -> ends_numeral U tok (x ++ STAR :: z).
Proof.
  destruct x as [|c x]; simpl.
  - intros _. split; [apply isdecimal_STAR|]. discriminate.
  - intros [Hc Hd]. split; [exact Hc|]. intros Ec Ht.
    specialize (Hd Ec Ht). destruct x as [|d x]; simpl;
      [apply isdecimal_STAR | exact Hd].
Qed.

Lemma find_tail m c s i :
  find m (c :: s) = Some (S i) -> find m s = Some i.
Proof.
  rewrite find_eq. destruct (prefixb m (c :: s)); [discriminate|].
  destruct (find m s); simpl; congruence.
Qed.

(** The first occurrence of the score marker, followed by one space and
    a numeral, is where the score pattern matches. *)
Lemma find_score_token_at p tok y :
  find rationality_score_marker
       (p ++ rationality_score_marker ++ SP :: tok ++ y) = Some (length p) ->
  numeral U tok -> ends_numeral U tok y ->
  find_score_token U (p ++ rationality_score_marker ++ SP :: tok ++ y)
  = Some tok.
Proof.
  intros Hf Ht Hy. induction p as [|c p IH].
  - cbn [app].
    assert (Hs : rationality_score_marker ++ SP :: tok ++ y =
                 (rationality_score_marker ++ [SP]) ++ tok ++ y)
      by (now rewrite <- app_assoc).
    assert (Hk : skipn (length rationality_score_marker + 1)
                       (rationality_score_marker ++ SP :: tok ++ y) = tok ++ y).
    { rewrite Hs.
      replace (length rationality_score_marker + 1)
        with (length (rationality_score_marker ++ [SP]))
        by (rewrite length_app; reflexivity).
      apply skipn_app_length. }
    destruct (rationality_score_marker ++ SP :: tok ++ y) as [|d r] eqn:E;
      [discriminate|].
    cbn [find_score_token]. rewrite Hk, Hs, prefixb_app.
    now rewrite (score_token_at tok y Ht Hy).
  - pose proof (find_first _ _ _ Hf 0 (Nat.lt_0_succ _)) as H0.
    cbn [app skipn] in H0. cbn [app find_score_token].
    destruct (prefixb (rationality_score_marker ++ [SP]) _) eqn:E.
    + apply prefixb_app_l in E. cbn [app] in *. congruence.
    + apply IH. eapply find_tail. exact Hf.
Qed.

End TokenFacts.

Lemma float_literals :
  binary64_of_decimal 5 1 = default_score /\
  binary64_of_decimal 8 1 = float_0_8 /\
  binary64_of_decimal 9 1 = float_0_9 /\
  binary64_of_decimal 10 1 = float_1_0 /\
  binary64_of_decimal 75 1 = float_7_5.
Proof. repeat split; vm_compute; reflexivity. Qed.

(** ** The model on small inputs *)

(** Ties go to the even mantissa: 2^53 + 1 reads as 2^53. *)
Example float_ties_to_even :
  float_ py_db (str_of "9007199254740993")
  = Ret (S754_finite false 4503599627370496 1).
Proof. vm_compute. reflexivity. Qed.

Example float_leading_zeros :
  float_ py_db (str_of "00012.500")
  = Ret (S754_finite false 7036874417766400 (-49)).
Proof. vm_compute. reflexivity. Qed.

(** A numeral beyond the binary64 range reads as infinity, as in Python. *)
Example float_overflow :
  float_ py_db (49%N :: repeat 48%N 400) = Ret (S754_infinity false).
Proof. vm_compute. reflexivity. Qed.

(** Arabic-Indic three, point, Arabic-Indic five. *)
Example float_arabic_indic :
  float_ py_db [1635%N; DOT; 1637%N]
  = Ret (S754_finite false 7881299347898368 (-51)).
Proof. vm_compute. reflexivity. Qed.

(** The first alternative of the score group fails behind the point, the
    second one takes the integer. *)
Example score_group_backtracks :
  option_map group1
    (re_search py_db rationality_score_re
               (str_of "**Rationality Score:** 12.x"))
  = Some (Some (str_of "12")).
Proof. vm_compute. reflexivity. Qed.

Example score_group_takes_fraction :
  option_map group1
    (re_search py_db rationality_score_re
               (str_of "Score **Rationality Score:** 1.50.7"))
  = Some (Some (str_of "1.50")).
Proof. vm_compute. reflexivity. Qed.

(** The lazy span stops in front of the terminator, and the leading white
    space stays outside the group. *)
Example reasoning_group :
  option_map group1
    (re_search py_db reasoning_re
               (str_of "**Reasoning for Score:**  sound **Feedback:** more"))
  = Some (Some (str_of "sound ")).
Proof. vm_compute. reflexivity. Qed.

Example strip_both_sides :
  strip py_db (str_of "  sound  ") = str_of "sound".
Proof. vm_compute. reflexivity. Qed.

(** * The claims *)

(** C1: the extractor is total.  On every input it returns a record with
    all four fields, and a field whose marker does not occur in the input
    holds its fixed fallback: 0.5, "No reasoning provided.",
    "No feedback provided.", "No improved argument provided.".  No
    exception is raised on any input. *)
Theorem extract_total (U : unicode_db) (s : str) :
  exists r,
    extract U s = Ret r /\
    (~ occurs rationality_score_marker s ->
     rationality_score r = default_score) /\
    (~ occurs reasoning_marker s ->
     reason_for_score r = str_of "No reasoning provided.") /\
    (~ occurs feedback_marker s ->
     feedback r = str_of "No feedback provided.") /\
    (~ occurs improved_argument_marker s ->
     improved_argument r = str_of "No improved argument provided.").
Proof.
  rewrite extract_spec.
  destruct (score_field_total U s) as [v [Hv _]].
  rewrite Hv. cbn [bind]. eexists. split; [reflexivity|].
  cbn [rationality_score reason_for_score feedback improved_argument].
  unfold text_field, after.
  repeat split; intros H; apply find_absent in H; try (now rewrite H).
  unfold score_field in Hv.
  rewrite (find_score_token_marker U s H) in Hv. congruence.
Qed.

(** C3: on the sample reply of the specification the extractor returns
    0.9, "Good logic", "Add evidence" and "Refined text.". *)
Theorem extract_sample_reply (U : unicode_db) :
  extract U (str_of "**Rationality Score:** 0.9  **Reasoning for Score:** Good logic **Feedback:** Add evidence **Improved Argument:** Refined text.")
  = Ret {| rationality_score := float_0_9;
           reason_for_score := str_of "Good logic";
           feedback := str_of "Add evidence";
           improved_argument := str_of "Refined text." |}.
Proof. run_extract. Qed.

(** C4: on the empty input the extractor returns the four fallbacks, the
    score being 0.5. *)
Theorem extract_empty (U : unicode_db) :
  extract U [] =
  Ret {| rationality_score := S754_finite false 4503599627370496 (-53);
         reason_for_score := str_of "No reasoning provided.";
         feedback := str_of "No feedback provided.";
         improved_argument := str_of "No improved argument provided." |}.
Proof. run_extract. Qed.

(** ** Supporting facts for the claims *)

Lemma find_missing_char c m s : In c m -> ~ In c s -> find m s = None.
Proof.
  intros Hm Hs. destruct (find m s) as [i|] eqn:E; [|reflexivity].
  exfalso. apply Hs. destruct (find_some m s i E) as [-> _].
  apply in_or_app. right. apply in_or_app. now left.
Qed.

Lemma after_at m p q :
  find m (p ++ m ++ q) = Some (length p) -> after m (p ++ m ++ q) = Some q.
Proof.
  intros H. unfold after. rewrite H. f_equal.
  now destruct (find_app_absent m p q H) as [_ [Hq _]].
Qed.

Lemma upto_at t a q :
  find t (a ++ t ++ q) = Some (length a) -> upto t (a ++ t ++ q) = a.
Proof.
  intros H. unfold upto. rewrite H. apply firstn_app_length.
Qed.

Lemma find_skip m p s i :
  find m (p ++ s) = Some (length p + i) -> find m s = Some i.
Proof.
  induction p as [|c p IH]; [auto|].
  intros H. apply IH. now apply find_tail with (c := c).
Qed.

Section ClaimFacts.

Variable U : unicode_db.

Lemma numeral_chars tok c :
  numeral U tok -> In c tok -> isdecimal U c = true \/ c = DOT.
Proof.
  intros [ip _ Hip | ip fp _ _ Hip Hfp] Hc.
  - left. revert c Hc. now apply Forall_forall.
  - apply in_app_or in Hc. destruct Hc as [Hc|[Hc|Hc]].
    + left. revert c Hc. now apply Forall_forall.
    + now right.
    + left. revert c Hc. now apply Forall_forall.
Qed.

(** A one-byte letter occurs in no score marker, space and numeral. *)
Lemma letter_not_in_score_reply c tok :
  (c < 128)%N -> ascii_todecimal c = None -> c <> DOT ->
  ~ In c (rationality_score_marker ++ [SP]) ->
  numeral U tok ->
  ~ In c (rationality_score_marker ++ SP :: tok).
Proof.
  intros Hc Hd Hdot Hm Ht Hin.
  apply in_app_or in Hin. destruct Hin as [Hin|[Hin|Hin]].
  - apply Hm. apply in_or_app. now left.
  - apply Hm. apply in_or_app. right. now left.
  - destruct (numeral_chars tok c Ht Hin) as [H|H]; [|contradiction].
    unfold isdecimal in H. rewrite (todecimal_ascii U c Hc), Hd in H.
    discriminate.
Qed.

Lemma score_reply_markers tok :
  numeral U tok ->
  find reasoning_marker (rationality_score_marker ++ SP :: tok) = None /\
  find feedback_marker (rationality_score_marker ++ SP :: tok) = None /\
  find improved_argument_marker (rationality_score_marker ++ SP :: tok) = None.
Proof.
  intros Ht. repeat split.
  - apply (find_missing_char 103%N);
      [vm_compute; tauto|].
    apply letter_not_in_score_reply; try reflexivity; try discriminate;
      [|exact Ht].
    vm_compute. intuition discriminate.
  - apply (find_missing_char 70%N);
      [vm_compute; tauto|].
    apply letter_not_in_score_reply; try reflexivity; try discriminate;
      [|exact Ht].
    vm_compute. intuition discriminate.
  - apply (find_missing_char 109%N);
      [vm_compute; tauto|].
    apply letter_not_in_score_reply; try reflexivity; try discriminate;
      [|exact Ht].
    vm_compute. intuition discriminate.
Qed.

(** The reply made of the score marker, one space and a numeral. *)
Lemma extract_score_reply tok :
  numeral U tok ->
  exists v,
    float_ U tok = Ret v /\
    extract U (rationality_score_marker ++ SP :: tok) =
    Ret {| rationality_score := v;
           reason_for_score := default_reason;
           feedback := default_feedback;
           improved_argument := default_improved |}.
Proof.
  intros Ht. destruct (float_numeral U tok Ht) as [v [Hv _]].
  exists v. split; [exact Hv|].
  rewrite extract_spec. unfold score_field, text_field, after.
  destruct (score_reply_markers tok Ht) as [-> [-> ->]].
  assert (Hf : find_score_token U (rationality_score_marker ++ SP :: tok)
               = Some tok).
  { pose proof (find_score_token_at U [] tok [] ) as H.
    cbn [app length] in H. rewrite app_nil_r in H.
    apply H; [|exact Ht|exact I].
    now rewrite find_eq, prefixb_app. }
  now rewrite Hf, Hv.
Qed.

(** Without a digit behind some occurrence of the marker and one space
    the score pattern matches nowhere. *)
Lemma find_score_token_none s :
  (forall p d q, s = p ++ rationality_score_marker ++ SP :: d :: q ->
                 isdecimal U d = false) ->
  find_score_token U s = None.
Proof.
  induction s as [|c s IH]; intros H; cbn [find_score_token].
  - reflexivity.
  - destruct (prefixb (rationality_score_marker ++ [SP]) (c :: s)) eqn:E.
    + apply prefixb_true in E.
      replace (length rationality_score_marker + 1)
        with (length (rationality_score_marker ++ [SP]))
        by (rewrite length_app; reflexivity).
      set (t := skipn _ (c :: s)) in *.
      assert (Ht : score_token U t = None).
      { unfold score_token. destruct t as [|d q]; [reflexivity|].
        cbn [take_decimal].
        rewrite (H [] d q) by (rewrite E at 1; now rewrite <- app_assoc).
        reflexivity. }
      rewrite Ht. apply IH. intros p d q ->.
      now apply (H (c :: p) d q).
    + apply IH. intros p d q ->. now apply (H (c :: p) d q).
Qed.

Lemma lstrip_whitespace ws : Forall (whitespace U) ws -> lstrip U ws = [].
Proof.
  induction 1 as [|c ws Hc _ IH]; simpl; [reflexivity|].
  unfold whitespace in Hc. now rewrite Hc.
Qed.

Lemma strip_whitespace ws : Forall (whitespace U) ws -> strip U ws = [].
Proof.
  intros H. unfold strip. now rewrite (lstrip_whitespace ws H).
Qed.

Lemma whitespace_upto t ws :
  Forall (whitespace U) ws -> Forall (whitespace U) (upto t ws).
Proof.
  intros H. unfold upto. destruct (find t ws) as [j|]; [|exact H].
  rewrite <- (firstn_skipn j ws) in H. now apply Forall_app in H.
Qed.

(** A text field whose marker is followed by white space only is empty. *)
Lemma text_field_blank m t d p ws :
  Forall (whitespace U) ws ->
  find m (p ++ m ++ ws) = Some (length p) ->
  text_field U m t d (p ++ m ++ ws) = [].
Proof.
  intros Hws Hf. unfold text_field. rewrite (after_at m p ws Hf).
  apply strip_whitespace. destruct t; [now apply whitespace_upto|exact Hws].
Qed.

Lemma extract_fields s :
  exists v,
    score_field U s = Ret v /\ nonneg_float v /\
    extract U s =
    Ret {| rationality_score := v;
           reason_for_score :=
             text_field U reasoning_marker (Some feedback_marker)
                        default_reason s;
           feedback :=
             text_field U feedback_marker (Some improved_argument_marker)
                        default_feedback s;
           improved_argument :=
             text_field U improved_argument_marker None default_improved s |}.
Proof.
  destruct (score_field_total U s) as [v [Hv Hn]].
  exists v. repeat split; try assumption.
  now rewrite extract_spec, Hv.
Qed.

End ClaimFacts.

(** C5: a reply made only of the score marker and a decimal numeral yields
    that number and the three text fallbacks, as "**Rationality Score:**
    0.8" yields 0.8; and when no occurrence of the marker and a space is
    followed by a digit, or the marker is absent, the score is 0.5. *)
Theorem score_only_reply (U : unicode_db) :
  (forall tok, numeral U tok ->
     exists v,
       float_ U tok = Ret v /\
       extract U (rationality_score_marker ++ SP :: tok) =
       Ret {| rationality_score := v;
              reason_for_score := str_of "No reasoning provided.";
              feedback := str_of "No feedback provided.";
              improved_argument := str_of "No improved argument provided." |}) /\
  extract U (str_of "**Rationality Score:** 0.8") =
  Ret {| rationality_score := float_0_8;
         reason_for_score := str_of "No reasoning provided.";
         feedback := str_of "No feedback provided.";
         improved_argument := str_of "No improved argument provided." |} /\
  (forall s,
     (forall p d q, s = p ++ rationality_score_marker ++ SP :: d :: q ->
                    isdecimal U d = false) ->
     exists r, extract U s = Ret r /\ rationality_score r = default_score) /\
  (forall s,
     ~ occurs rationality_score_marker s ->
     exists r, extract U s = Ret r /\ rationality_score r = default_score).
Proof.
  split; [|split; [|split]].
  - intros tok Ht. exact (extract_score_reply U tok Ht).
  - run_extract.
  - intros s H. rewrite extract_spec. unfold score_field.
    rewrite (find_score_token_none U s H). cbn [bind].
    eexists. split; reflexivity.
  - intros s H. rewrite extract_spec. unfold score_field.
    rewrite (find_score_token_marker U s (find_absent _ _ H)). cbn [bind].
    eexists. split; reflexivity.
Qed.

(** C7: the extractor does not keep the score within 0.0 and 1.0.  The reply
    "**Rationality Score:** 7.5" yields 7.5, which is greater than 1.0; and
    whatever numeral the score pattern captures, the score is [float] of
    that numeral, unchanged. *)
Theorem score_not_bounded (U : unicode_db) :
  extract U (str_of "**Rationality Score:** 7.5") =
  Ret {| rationality_score := float_7_5;
         reason_for_score := str_of "No reasoning provided.";
         feedback := str_of "No feedback provided.";
         improved_argument := str_of "No improved argument provided." |} /\
  SFltb float_1_0 float_7_5 = true /\
  (forall s m,
     re_search U rationality_score_re s = Some m ->
     exists tok r,
       group1 m = Some tok /\ numeral U tok /\
       extract U s = Ret r /\ float_ U tok = Ret (rationality_score r)).
Proof.
  split; [run_extract|]. split; [reflexivity|].
  intros s m Hm. rewrite re_search_score in Hm.
  destruct (find_score_token U s) as [tok|] eqn:E; [|discriminate].
  injection Hm as <-.
  pose proof (find_score_token_numeral U s tok E) as Ht.
  destruct (float_numeral U tok Ht) as [v [Hv _]].
  exists tok. eexists. split; [reflexivity|]. split; [exact Ht|].
  rewrite extract_spec. unfold score_field. rewrite E, Hv. cbn [bind].
  split; reflexivity.
Qed.

(** C9: a text field whose marker is present holds the text behind the
    marker even when that text is empty: the fallback sentence is for an
    absent marker only.  The reply "**Feedback:**" yields the empty string
    as feedback, and so does every reply in which the first occurrence of
    a text marker is followed by white space only. *)
Theorem blank_section_is_empty (U : unicode_db) :
  extract U (str_of "**Feedback:**") =
  Ret {| rationality_score := default_score;
         reason_for_score := str_of "No reasoning provided.";
         feedback := [];
         improved_argument := str_of "No improved argument provided." |} /\
  (forall p ws,
     Forall (whitespace U) ws ->
     find reasoning_marker (p ++ reasoning_marker ++ ws) = Some (length p) ->
     exists r, extract U (p ++ reasoning_marker ++ ws) = Ret r /\
               reason_for_score r = []) /\
  (forall p ws,
     Forall (whitespace U) ws ->
     find feedback_marker (p ++ feedback_marker ++ ws) = Some (length p) ->
     exists r, extract U (p ++ feedback_marker ++ ws) = Ret r /\
               feedback r = []) /\
  (forall p ws,
     Forall (whitespace U) ws ->
     find improved_argument_marker (p ++ improved_argument_marker ++ ws)
     = Some (length p) ->
     exists r, extract U (p ++ improved_argument_marker ++ ws) = Ret r /\
               improved_argument r = []).
Proof.
  split; [run_extract|].
  repeat split; intros p ws Hws Hf;
    match goal with
    | |- exists r, extract U ?s = _ /\ _ =>
        destruct (extract_fields U s) as [v [_ [_ He]]]
    end;
    eexists; (split; [exact He|]);
    cbn [reason_for_score feedback improved_argument];
    now apply text_field_blank.
Qed.

(** ** Markers in and out of order *)

Section SpanFacts.

Variable U : unicode_db.

Lemma text_field_found m t d s i :
  find m s = Some i ->
  text_field U m t d s =
  strip U (match t with
           | Some t' => upto t' (skipn (i + length m) s)
           | None => skipn (i + length m) s
           end).
Proof. intros H. unfold text_field, after. now rewrite H. Qed.

Lemma re_search_found r m (F : str -> match_object) s :
  re_search U r s = option_map F (after m s) ->
  (re_search U r s = None <-> ~ occurs m s).
Proof.
  intros ->. unfold after. split.
  - intros H [p [q ->]].
    destruct (find m (p ++ m ++ q)) eqn:E; [discriminate|].
    exact (find_none m _ E p q eq_refl).
  - intros H. now rewrite (find_absent m s H).
Qed.

(** A text field between its marker at its first occurrence and the
    first occurrence of its terminator behind it. *)
Lemma text_field_between m t d p a q :
  find m (p ++ m ++ a ++ t ++ q) = Some (length p) ->
  find t (a ++ t ++ q) = Some (length a) ->
  text_field U m (Some t) d (p ++ m ++ a ++ t ++ q) = strip U a.
Proof.
  intros Hm Ht. unfold text_field.
  rewrite (after_at m p (a ++ t ++ q) Hm).
  now rewrite (upto_at t a q Ht).
Qed.

Lemma text_field_tail m d p a :
  find m (p ++ m ++ a) = Some (length p) ->
  text_field U m None d (p ++ m ++ a) = strip U a.
Proof.
  intros Hm. unfold text_field. now rewrite (after_at m p a Hm).
Qed.

End SpanFacts.

(** C6: with the markers present in any order, each text field is the
    trimmed text from the first occurrence of its own marker up to the next
    occurrence of its terminating marker behind it, or up to the end of the
    input when there is none ([upto]); the fallback is taken exactly when
    the field's own marker occurs nowhere, that is when there is no such
    span. *)
Theorem out_of_order_spans (U : unicode_db) (s : str) (i_r i_f i_i : nat) :
  find reasoning_marker s = Some i_r ->
  find feedback_marker s = Some i_f ->
  find improved_argument_marker s = Some i_i ->
  (exists r,
     extract U s = Ret r /\
     reason_for_score r =
       strip U (upto feedback_marker
                     (skipn (i_r + length reasoning_marker) s)) /\
     feedback r =
       strip U (upto improved_argument_marker
                     (skipn (i_f + length feedback_marker) s)) /\
     improved_argument r =
       strip U (skipn (i_i + length improved_argument_marker) s)) /\
  (forall s',
     (re_search U reasoning_re s' = None <-> ~ occurs reasoning_marker s') /\
     (re_search U feedback_re s' = None <-> ~ occurs feedback_marker s') /\
     (re_search U improved_argument_re s' = None <->
      ~ occurs improved_argument_marker s')).
Proof.
  intros Hr Hf Hi. split.
  - destruct (extract_fields U s) as [v [_ [_ He]]].
    eexists. split; [exact He|].
    cbn [reason_for_score feedback improved_argument].
    now rewrite (text_field_found U _ _ _ s i_r Hr),
      (text_field_found U _ _ _ s i_f Hf),
      (text_field_found U _ _ _ s i_i Hi).
  - intros s'. repeat split.
    + apply (re_search_found U _ _ _ _ (re_search_reasoning U s')).
    + apply (re_search_found U _ _ _ _ (re_search_reasoning U s')).
    + apply (re_search_found U _ _ _ _ (re_search_feedback U s')).
    + apply (re_search_found U _ _ _ _ (re_search_feedback U s')).
    + apply (re_search_found U _ _ _ _ (re_search_improved U s')).
    + apply (re_search_found U _ _ _ _ (re_search_improved U s')).
Qed.

(** C2, amended: when the four markers stand in the expected order, each at
    its first occurrence in the input, and the score marker is followed by
    exactly one space and a numeral that the following text does not
    continue, the score is [float] of that numeral and each text field is
    exactly the text between its marker and the next marker, or the end of
    the input for the last field, with the surrounding white space
    trimmed. *)
Theorem markers_in_order (U : unicode_db) (p0 tok x a b c : str) :
  let s := p0 ++ rationality_score_marker ++ SP :: tok ++ x
              ++ reasoning_marker ++ a
              ++ feedback_marker ++ b
              ++ improved_argument_marker ++ c in
  numeral U tok ->
  ends_numeral U tok x ->
  find rationality_score_marker s = Some (length p0) ->
  find reasoning_marker s =
    Some (length (p0 ++ rationality_score_marker ++ SP :: tok ++ x)) ->
  find feedback_marker s =
    Some (length (p0 ++ rationality_score_marker ++ SP :: tok ++ x
                     ++ reasoning_marker ++ a)) ->
  find improved_argument_marker s =
    Some (length (p0 ++ rationality_score_marker ++ SP :: tok ++ x
                     ++ reasoning_marker ++ a ++ feedback_marker ++ b)) ->
  exists v,
    float_ U tok = Ret v /\
    extract U s =
    Ret {| rationality_score := v;
           reason_for_score := strip U a;
           feedback := strip U b;
           improved_argument := strip U c |}.
Proof.
  intros s Ht Hx Hs Hr Hf Hi.
  destruct (float_numeral U tok Ht) as [v [Hv _]].
  exists v. split; [exact Hv|].
  rewrite extract_spec.
  (* the score *)
  assert (Hscore : score_field U s = Ret v).
  { unfold score_field.
    assert (Hy : ends_numeral U tok
                   (x ++ reasoning_marker ++ a
                      ++ feedback_marker ++ b
                      ++ improved_argument_marker ++ c)).
    { change reasoning_marker with (STAR :: tl reasoning_marker).
      cbn [app]. now apply ends_numeral_app. }
    subst s. rewrite (find_score_token_at U p0 tok _ Hs Ht Hy). exact Hv. }
  rewrite Hscore. cbn [bind].
  (* the three text fields *)
  set (p1 := p0 ++ rationality_score_marker ++ SP :: tok ++ x) in *.
  set (p2 := p1 ++ reasoning_marker ++ a).
  set (p3 := p2 ++ feedback_marker ++ b).
  assert (E1 : s = p1 ++ reasoning_marker ++ a ++ feedback_marker
                      ++ b ++ improved_argument_marker ++ c).
  { subst s p1. now rewrite <- !app_assoc, <- app_comm_cons, <- !app_assoc. }
  assert (E2 : s = p2 ++ feedback_marker ++ b ++ improved_argument_marker ++ c).
  { rewrite E1. subst p2. now rewrite <- !app_assoc. }
  assert (E3 : s = p3 ++ improved_argument_marker ++ c).
  { rewrite E2. subst p3. now rewrite <- !app_assoc. }
  assert (L2 : length (p0 ++ rationality_score_marker ++ SP :: tok ++ x
                          ++ reasoning_marker ++ a) = length p2).
  { subst p2 p1. now rewrite <- !app_assoc, <- app_comm_cons, <- !app_assoc. }
  assert (L3 : length (p0 ++ rationality_score_marker ++ SP :: tok ++ x
                          ++ reasoning_marker ++ a ++ feedback_marker ++ b)
               = length p3).
  { subst p3 p2 p1.
    now rewrite <- !app_assoc, <- app_comm_cons, <- !app_assoc. }
  rewrite L2 in Hf. rewrite L3 in Hi.
  assert (Hf' : find feedback_marker
                  (a ++ feedback_marker ++ b ++ improved_argument_marker ++ c)
                = Some (length a)).
  { apply (find_skip feedback_marker (p1 ++ reasoning_marker)).
    rewrite <- app_assoc, <- E1.
    rewrite Hf. subst p2. now rewrite app_assoc, (length_app _ a). }
  assert (Hi' : find improved_argument_marker
                  (b ++ improved_argument_marker ++ c) = Some (length b)).
  { apply (find_skip improved_argument_marker (p2 ++ feedback_marker)).
    rewrite <- app_assoc, <- E2.
    rewrite Hi. subst p3. now rewrite app_assoc, (length_app _ b). }
  f_equal. f_equal.
  - rewrite E1 at 1. rewrite E1 in Hr.
    now apply text_field_between.
  - rewrite E2 at 1. rewrite E2 in Hf.
    now apply text_field_between.
  - rewrite E3 at 1. rewrite E3 in Hi.
    now apply text_field_tail.
Qed.

(** ** The space between the score marker and the digits *)

Lemma occurrences_at m p q : 1 <= occurrences m (p ++ m ++ q).
Proof.
  induction p as [|c p IH].
  - cbn [app]. destruct (m ++ q) as [|d r] eqn:E.
    + destruct m; [simpl; lia|discriminate].
    + cbn [occurrences]. rewrite <- E, prefixb_app. lia.
  - cbn [app occurrences]. lia.
Qed.

(** A marker that occurs once occurs at one place. *)
Lemma occurrences_once m p q p' q' :
  occurrences m (p ++ m ++ q) = 1 ->
  p ++ m ++ q = p' ++ m ++ q' ->
  m <> [] ->
  p = p'.
Proof.
  intros Ho He Hm. revert p' He Ho.
  induction p as [|c p IH]; intros [|c' p'] He Ho.
  - reflexivity.
  - exfalso. cbn [app] in *. rewrite He in Ho.
    cbn [occurrences] in Ho. rewrite <- He in Ho at 1.
    rewrite prefixb_app in Ho.
    pose proof (occurrences_at m p' q'). lia.
  - exfalso. cbn [app] in *.
    cbn [occurrences] in Ho. rewrite He in Ho at 1.
    rewrite prefixb_app in Ho.
    pose proof (occurrences_at m p q). lia.
  - cbn [app] in He. injection He as Hc He. subst c'. f_equal.
    apply (IH p' He). cbn [app occurrences] in Ho.
    pose proof (occurrences_at m p q). lia.
Qed.

Section GapFacts.

Variable U : unicode_db.

Lemma blank_not_decimal c :
  c = SP \/ c = TAB \/ c = NL -> isdecimal U c = false.
Proof.
  unfold isdecimal. intros [-> | [-> | ->]]; now rewrite todecimal_ascii.
Qed.

(** With the marker occurring once and the gap behind it not the single
    space, the score pattern matches nowhere. *)
Lemma misplaced_no_token p gap d q :
  misplaced gap ->
  isdecimal U d = true ->
  occurrences rationality_score_marker
              (p ++ rationality_score_marker ++ gap ++ d :: q) = 1 ->
  find_score_token U (p ++ rationality_score_marker ++ gap ++ d :: q) = None.
Proof.
  intros [Hg Hne] Hd Ho. apply find_score_token_none.
  intros p' d' q' He.
  assert (Hp : p = p').
  { apply (occurrences_once rationality_score_marker p (gap ++ d :: q)
                            p' (SP :: d' :: q') Ho He).
    discriminate. }
  subst p'. apply app_inv_head in He. apply app_inv_head in He.
  destruct gap as [|g1 [|g2 gap]]; cbn [app] in He.
  - injection He as -> _. rewrite (blank_not_decimal SP) in Hd by auto.
    discriminate.
  - injection He as -> _ _. congruence.
  - injection He as _ Hg2 _. subst d'. apply blank_not_decimal.
    inversion Hg as [|? ? _ Hg']. now inversion Hg'.
Qed.

Lemma lstrip_app_whitespace ws r :
  Forall (whitespace U) ws -> lstrip U (ws ++ r) = lstrip U r.
Proof.
  induction 1 as [|c ws Hc _ IH]; simpl; [reflexivity|].
  unfold whitespace in Hc. now rewrite Hc.
Qed.

(** A text marker at the front of the input: the white space behind it
    does not change the field. *)
Lemma text_field_leading_space m t d ws r :
  hd_error m = Some STAR ->
  match t with Some t' => hd_error t' = Some STAR | None => True end ->
  Forall (whitespace U) ws ->
  text_field U m t d (m ++ ws ++ r) = text_field U m t d (m ++ r).
Proof.
  intros Hm Ht Hws. unfold text_field.
  assert (Ha : forall z, after m (m ++ z) = Some z).
  { intros z. apply (after_at m [] z). cbn [app length].
    now rewrite find_eq, prefixb_app. }
  rewrite !Ha.
  destruct t as [t'|].
  - destruct t' as [|c t']; [discriminate|]. injection Ht as ->.
    rewrite <- (strip_lstrip U (upto _ (ws ++ r))),
      <- (strip_lstrip U (upto _ r)).
    rewrite <- !(upto_lstrip U _ _ _ (star_not_space U)).
    now rewrite (lstrip_app_whitespace ws r Hws).
  - rewrite <- (strip_lstrip U (ws ++ r)), <- (strip_lstrip U r).
    now rewrite (lstrip_app_whitespace ws r Hws).
Qed.

End GapFacts.

(** C10, as stated, fails: in this reply the marker is followed by two
    spaces before the digit 1, yet the score is 2.0 and not 0.5, because the
    marker occurs a second time with one space before a digit. *)
Lemma misplaced_space_counterexample :
  ~ (forall (U : unicode_db) (p gap q : str) (d : char),
       misplaced gap -> isdecimal U d = true ->
       exists r,
         extract U (p ++ rationality_score_marker ++ gap ++ d :: q) = Ret r /\
         rationality_score r = default_score).
Proof.
  intros H.
  destruct (H py_db [] [SP; SP] (str_of " **Rationality Score:** 2") 49%N)
    as [r [Hr Hd]].
  - split; [repeat constructor; auto|discriminate].
  - reflexivity.
  - vm_compute in Hr. injection Hr as <-. discriminate.
Qed.

(** C10, amended: when the score marker occurs once in the input and is
    followed by no space, by two or more blanks, by a tab or by a newline
    before the digits, the score is 0.5; the three text markers accept any
    run of white space, the empty one included, before their content. *)
Theorem misplaced_space (U : unicode_db) (p gap q ws rest : str) (d : char) :
  misplaced gap ->
  isdecimal U d = true ->
  occurrences rationality_score_marker
              (p ++ rationality_score_marker ++ gap ++ d :: q) = 1 ->
  Forall (whitespace U) ws ->
  (exists r,
     extract U (p ++ rationality_score_marker ++ gap ++ d :: q) = Ret r /\
     rationality_score r = default_score) /\
  (exists r r',
     extract U (reasoning_marker ++ ws ++ rest) = Ret r /\
     extract U (reasoning_marker ++ rest) = Ret r' /\
     reason_for_score r = reason_for_score r') /\
  (exists r r',
     extract U (feedback_marker ++ ws ++ rest) = Ret r /\
     extract U (feedback_marker ++ rest) = Ret r' /\
     feedback r = feedback r') /\
  (exists r r',
     extract U (improved_argument_marker ++ ws ++ rest) = Ret r /\
     extract U (improved_argument_marker ++ rest) = Ret r' /\
     improved_argument r = improved_argument r').
Proof.
  intros Hg Hd Ho Hws. split; [|split; [|split]].
  - rewrite extract_spec. unfold score_field.
    rewrite (misplaced_no_token U p gap d q Hg Hd Ho). cbn [bind].
    eexists. split; reflexivity.
  - destruct (extract_fields U (reasoning_marker ++ ws ++ rest))
      as [v [_ [_ He]]].
    destruct (extract_fields U (reasoning_marker ++ rest))
      as [v' [_ [_ He']]].
    do 2 eexists. split; [exact He|]. split; [exact He'|].
    cbn [reason_for_score].
    now apply text_field_leading_space.
  - destruct (extract_fields U (feedback_marker ++ ws ++ rest))
      as [v [_ [_ He]]].
    destruct (extract_fields U (feedback_marker ++ rest))
      as [v' [_ [_ He']]].
    do 2 eexists. split; [exact He|]. split; [exact He'|].
    cbn [feedback].
    now apply text_field_leading_space.
  - destruct (extract_fields U (improved_argument_marker ++ ws ++ rest))
      as [v [_ [_ He]]].
    destruct (extract_fields U (improved_argument_marker ++ rest))
      as [v' [_ [_ He']]].
    do 2 eexists. split; [exact He|]. split; [exact He'|].
    cbn [improved_argument].
    now apply text_field_leading_space.
Qed.

(** ** A sign in front of the digits *)

Lemma app_split_in (a b u v : str) (c : char) :
  a ++ b = u ++ c :: v -> length a <= length u -> In c b.
Proof.
  revert u. induction a as [|x a IH]; intros u E Hl.
  - cbn [app] in E. rewrite E. apply in_or_app. right. now left.
  - destruct u as [|y u]; [cbn [length] in Hl; lia|].
    cbn [app] in E. injection E as _ E.
    apply (IH u E). cbn [length] in Hl. lia.
Qed.

(** A marker whose character [c] at offset [length m1] is met in the input
    at earlier offsets only does not occur in the input. *)
Lemma find_char_position m m1 c m2 a b :
  m = m1 ++ c :: m2 -> length a <= length m1 -> ~ In c b ->
  find m (a ++ b) = None.
Proof.
  intros Hm Hl Hc. destruct (find m (a ++ b)) as [i|] eqn:E; [|reflexivity].
  exfalso. apply Hc. destruct (find_some m (a ++ b) i E) as [Hs _].
  remember (firstn i (a ++ b)) as P eqn:HP.
  remember (skipn (i + length m) (a ++ b)) as Q eqn:HQ.
  clear HP HQ E. subst m.
  assert (Hs' : a ++ b = (P ++ m1) ++ c :: (m2 ++ Q)).
  { rewrite Hs. now rewrite <- !app_assoc. }
  apply (app_split_in a b _ _ c Hs').
  rewrite length_app. lia.
Qed.

(** Behind its own first character the score marker starts again only
    where another capital R stands. *)
Lemma score_marker_not_later x :
  ~ In 82%N x -> find rationality_score_marker (tl rationality_score_marker ++ x) = None.
Proof.
  intros Hx.
  change (tl rationality_score_marker ++ x)
    with ([STAR; 82%N] ++ (skipn 2 (tl rationality_score_marker) ++ x)).
  apply (find_char_position rationality_score_marker [STAR; STAR] 82%N
           (skipn 3 rationality_score_marker)); [reflexivity|cbn; lia|].
  intros H. apply in_app_or in H. destruct H as [H|H]; [|exact (Hx H)].
  vm_compute in H. intuition discriminate.
Qed.

Section SignFacts.

Variable U : unicode_db.

Lemma isdecimal_MINUS : isdecimal U MINUS = false.
Proof. unfold isdecimal. now rewrite todecimal_ascii. Qed.

(** A one-byte letter that is not in the text in front does not come in
    with a numeral. *)
Lemma letter_not_in_numeral c pre tok :
  (c < 128)%N -> ascii_todecimal c = None -> c <> DOT ->
  ~ In c pre -> numeral U tok -> ~ In c (pre ++ tok).
Proof.
  intros Hc Hd Hdot Hp Ht Hin.
  apply in_app_or in Hin. destruct Hin as [Hin|Hin]; [exact (Hp Hin)|].
  destruct (numeral_chars U tok c Ht Hin) as [H|H]; [|contradiction].
  unfold isdecimal in H. rewrite (todecimal_ascii U c Hc), Hd in H.
  discriminate.
Qed.

(** The score pattern finds nothing in the marker, a space, a minus sign
    and a numeral. *)
Lemma signed_reply_token tok :
  numeral U tok ->
  find_score_token U (rationality_score_marker ++ SP :: MINUS :: tok) = None.
Proof.
  intros Ht.
  assert (Htail : find_score_token U
                    (tl rationality_score_marker ++ SP :: MINUS :: tok) = None).
  { apply find_score_token_marker. apply score_marker_not_later.
    change (SP :: MINUS :: tok) with ([SP; MINUS] ++ tok).
    apply letter_not_in_numeral; try reflexivity; try discriminate;
      [|exact Ht].
    vm_compute. intuition discriminate. }
  assert (Hk : skipn (length rationality_score_marker + 1)
                     (rationality_score_marker ++ SP :: MINUS :: tok)
               = MINUS :: tok).
  { change (rationality_score_marker ++ SP :: MINUS :: tok)
      with ((rationality_score_marker ++ [SP]) ++ MINUS :: tok).
    replace (length rationality_score_marker + 1)
      with (length (rationality_score_marker ++ [SP])) by reflexivity.
    apply skipn_app_length. }
  change (rationality_score_marker ++ SP :: MINUS :: tok)
    with (STAR :: (tl rationality_score_marker ++ SP :: MINUS :: tok)) at 1.
  cbn [find_score_token].
  change (STAR :: (tl rationality_score_marker ++ SP :: MINUS :: tok))
    with (rationality_score_marker ++ SP :: MINUS :: tok).
  rewrite Hk. unfold score_token at 1. cbn [take_decimal].
  rewrite isdecimal_MINUS.
  destruct (prefixb _ _); exact Htail.
Qed.

Lemma signed_reply_markers tok :
  numeral U tok ->
  find reasoning_marker (rationality_score_marker ++ SP :: MINUS :: tok) = None /\
  find feedback_marker (rationality_score_marker ++ SP :: MINUS :: tok) = None /\
  find improved_argument_marker
       (rationality_score_marker ++ SP :: MINUS :: tok) = None.
Proof.
  intros Ht.
  change (rationality_score_marker ++ SP :: MINUS :: tok)
    with ((rationality_score_marker ++ [SP; MINUS]) ++ tok).
  repeat split.
  - apply (find_missing_char 103%N); [vm_compute; tauto|].
    apply letter_not_in_numeral; try reflexivity; try discriminate;
      [|exact Ht].
    vm_compute. intuition discriminate.
  - apply (find_missing_char 70%N); [vm_compute; tauto|].
    apply letter_not_in_numeral; try reflexivity; try discriminate;
      [|exact Ht].
    vm_compute. intuition discriminate.
  - apply (find_missing_char 109%N); [vm_compute; tauto|].
    apply letter_not_in_numeral; try reflexivity; try discriminate;
      [|exact Ht].
    vm_compute. intuition discriminate.
Qed.

(** With the marker occurring once and a minus sign behind its space, the
    score pattern finds nothing, whatever follows the sign. *)
Lemma signed_no_token p q :
  occurrences rationality_score_marker
              (p ++ rationality_score_marker ++ SP :: MINUS :: q) = 1 ->
  find_score_token U (p ++ rationality_score_marker ++ SP :: MINUS :: q) = None.
Proof.
  intros Ho. apply find_score_token_none. intros p' d q' He.
  assert (Hp : p = p').
  { apply (occurrences_once rationality_score_marker p (SP :: MINUS :: q)
                            p' (SP :: d :: q') Ho He).
    discriminate. }
  subst p'. apply app_inv_head in He. apply app_inv_head in He.
  injection He as <- _. apply isdecimal_MINUS.
Qed.

End SignFacts.

(** C8: the score is never negative.  On every input it is either the
    fallback 0.5 or [float] of an unsigned numeral [digits] or
    [digits.digits], and it compares [0.0 <= score]; the reply
    "**Rationality Score:** -0.5" yields 0.5.  So does every negative
    number written behind the marker: the marker, a space, a minus sign and
    any numeral yield 0.5 and the three text fallbacks, and in any reply
    where the marker occurs once and a minus sign stands behind its space
    the score is 0.5, whatever follows the sign. *)
Theorem score_never_negative (U : unicode_db) :
  (forall s,
     exists r,
       extract U s = Ret r /\
       SFleb (S754_zero false) (rationality_score r) = true /\
       (rationality_score r = default_score \/
        exists tok, numeral U tok /\ float_ U tok = Ret (rationality_score r))) /\
  extract U (str_of "**Rationality Score:** -0.5") =
  Ret {| rationality_score := default_score;
         reason_for_score := str_of "No reasoning provided.";
         feedback := str_of "No feedback provided.";
         improved_argument := str_of "No improved argument provided." |} /\
  (forall tok,
     numeral U tok ->
     extract U (rationality_score_marker ++ SP :: MINUS :: tok) =
     Ret {| rationality_score := default_score;
            reason_for_score := str_of "No reasoning provided.";
            feedback := str_of "No feedback provided.";
            improved_argument := str_of "No improved argument provided." |}) /\
  (forall p q,
     occurrences rationality_score_marker
                 (p ++ rationality_score_marker ++ SP :: MINUS :: q) = 1 ->
     exists r,
       extract U (p ++ rationality_score_marker ++ SP :: MINUS :: q) = Ret r /\
       rationality_score r = default_score).
Proof.
  split; [|split; [run_extract|split]].
  - intros s. destruct (extract_fields U s) as [v [Hv [Hn He]]].
    eexists. split; [exact He|]. split; [exact Hn|].
    cbn [rationality_score]. unfold score_field in Hv.
    destruct (find_score_token U s) as [tok|] eqn:E.
    + right. exists tok. split; [|exact Hv].
      eapply find_score_token_numeral; eassumption.
    + left. congruence.
  - intros tok Ht. rewrite extract_spec.
    unfold score_field, text_field, after.
    rewrite (signed_reply_token U tok Ht).
    destruct (signed_reply_markers U tok Ht) as [-> [-> ->]].
    reflexivity.
  - intros p q Ho. rewrite extract_spec. unfold score_field.
    rewrite (signed_no_token U p q Ho). cbn [bind].
    eexists. split; reflexivity.
Qed.

Lemma numeral_7_5 : numeral py_db (str_of "7.5").
Proof.
  apply (numeral_frac py_db [55%N] [53%N]);
    try discriminate; repeat constructor.
Defined.

Lemma score_never_negative_witness :
  numeral py_db (str_of "7.5") /\
  extract py_db (rationality_score_marker ++ SP :: MINUS :: str_of "7.5") =
  Ret {| rationality_score := default_score;
         reason_for_score := str_of "No reasoning provided.";
         feedback := str_of "No feedback provided.";
         improved_argument := str_of "No improved argument provided." |} /\
  occurrences rationality_score_marker
              (str_of "Here: " ++ rationality_score_marker
                 ++ SP :: MINUS :: str_of "7.5 out of 10") = 1 /\
  exists r,
    extract py_db (str_of "Here: " ++ rationality_score_marker
                     ++ SP :: MINUS :: str_of "7.5 out of 10") = Ret r /\
    rationality_score r = default_score.
Proof.
  assert (Ho : occurrences rationality_score_marker
                 (str_of "Here: " ++ rationality_score_marker
                    ++ SP :: MINUS :: str_of "7.5 out of 10") = 1)
    by (vm_compute; reflexivity).
  split; [exact numeral_7_5|].
  split; [exact (proj1 (proj2 (proj2 (score_never_negative py_db)))
                       (str_of "7.5") numeral_7_5)|].
  split; [exact Ho|].
  exact (proj2 (proj2 (proj2 (score_never_negative py_db)))
               (str_of "Here: ") (str_of "7.5 out of 10") Ho).
Defined.

(** ** The theorems at concrete replies *)

Lemma numeral_0_9 : numeral py_db (str_of "0.9").
Proof.
  apply (numeral_frac py_db [48%N] [57%N]);
    try discriminate; repeat constructor.
Defined.

Lemma markers_in_order_witness :
  numeral py_db (str_of "0.9") /\
  ends_numeral py_db (str_of "0.9") (str_of "  ") /\
  exists v,
    float_ py_db (str_of "0.9") = Ret v /\
    extract py_db
      ([] ++ rationality_score_marker ++ SP :: str_of "0.9" ++ str_of "  "
          ++ reasoning_marker ++ str_of " Good logic "
          ++ feedback_marker ++ str_of " Add evidence "
          ++ improved_argument_marker ++ str_of " Refined text.") =
    Ret {| rationality_score := v;
           reason_for_score := strip py_db (str_of " Good logic ");
           feedback := strip py_db (str_of " Add evidence ");
           improved_argument := strip py_db (str_of " Refined text.") |}.
Proof.
  split; [exact numeral_0_9|].
  split; [split; [reflexivity|discriminate]|].
  apply (markers_in_order py_db [] (str_of "0.9") (str_of "  ")
           (str_of " Good logic ") (str_of " Add evidence ")
           (str_of " Refined text.")).
  - exact numeral_0_9.
  - split; [reflexivity|discriminate].
  - vm_compute; reflexivity.
  - vm_compute; reflexivity.
  - vm_compute; reflexivity.
  - vm_compute; reflexivity.
Defined.

Lemma out_of_order_spans_witness :
  let s := str_of "**Improved Argument:** c **Feedback:** b **Reasoning for Score:** a **Rationality Score:** 0.3" in
  find reasoning_marker s = Some 41 /\
  find feedback_marker s = Some 25 /\
  find improved_argument_marker s = Some 0 /\
  exists r,
    extract py_db s = Ret r /\
    reason_for_score r = str_of "a **Rationality Score:** 0.3" /\
    feedback r =
      str_of "b **Reasoning for Score:** a **Rationality Score:** 0.3" /\
    improved_argument r =
      str_of "c **Feedback:** b **Reasoning for Score:** a **Rationality Score:** 0.3".
Proof.
  intros s.
  assert (Hr : find reasoning_marker s = Some 41) by (vm_compute; reflexivity).
  assert (Hf : find feedback_marker s = Some 25) by (vm_compute; reflexivity).
  assert (Hi : find improved_argument_marker s = Some 0)
    by (vm_compute; reflexivity).
  repeat (split; [assumption|]).
  destruct (out_of_order_spans py_db s 41 25 0 Hr Hf Hi)
    as [[r [He [H1 [H2 H3]]]] _].
  exists r. split; [exact He|].
  rewrite H1, H2, H3. repeat split; vm_compute; reflexivity.
Defined.

Lemma misplaced_space_witness :
  misplaced [SP; SP] /\
  isdecimal py_db 53%N = true /\
  occurrences rationality_score_marker
              ([] ++ rationality_score_marker ++ [SP; SP] ++ 53%N :: []) = 1 /\
  Forall (whitespace py_db) [SP; NL] /\
  exists r,
    extract py_db (str_of "**Rationality Score:**  5") = Ret r /\
    rationality_score r = default_score.
Proof.
  assert (Hg : misplaced [SP; SP])
    by (split; [repeat constructor; auto|discriminate]).
  assert (Hd : isdecimal py_db 53%N = true) by reflexivity.
  assert (Ho : occurrences rationality_score_marker
                 ([] ++ rationality_score_marker ++ [SP; SP] ++ 53%N :: []) = 1)
    by (vm_compute; reflexivity).
  assert (Hw : Forall (whitespace py_db) [SP; NL])
    by (repeat constructor).
  repeat (split; [assumption|]).
  exact (proj1 (misplaced_space py_db [] [SP; SP] [] [SP; NL]
                                (str_of "text") 53%N Hg Hd Ho Hw)).
Defined.

Lemma score_only_reply_witness :
  numeral py_db (str_of "0.9") /\
  exists v,
    float_ py_db (str_of "0.9") = Ret v /\
    extract py_db (rationality_score_marker ++ SP :: str_of "0.9") =
    Ret {| rationality_score := v;
           reason_for_score := str_of "No reasoning provided.";
           feedback := str_of "No feedback provided.";
           improved_argument := str_of "No improved argument provided." |}.
Proof.
  split; [exact numeral_0_9|].
  exact (proj1 (score_only_reply py_db) (str_of "0.9") numeral_0_9).
Defined.

Lemma score_not_bounded_witness :
  re_search py_db rationality_score_re (str_of "**Rationality Score:** 7.5")
  = Some {| group1 := Some (str_of "7.5") |} /\
  exists tok r,
    Some (str_of "7.5") = Some tok /\ numeral py_db tok /\
    extract py_db (str_of "**Rationality Score:** 7.5") = Ret r /\
    float_ py_db tok = Ret (rationality_score r).
Proof.
  assert (Hm : re_search py_db rationality_score_re
                 (str_of "**Rationality Score:** 7.5")
               = Some {| group1 := Some (str_of "7.5") |})
    by (vm_compute; reflexivity).
  split; [exact Hm|].
  exact (proj2 (proj2 (score_not_bounded py_db))
               (str_of "**Rationality Score:** 7.5") _ Hm).
Defined.

Lemma blank_section_is_empty_witness :
  Forall (whitespace py_db) [SP; NL] /\
  find feedback_marker (str_of "Reply: " ++ feedback_marker ++ [SP; NL])
  = Some (length (str_of "Reply: ")) /\
  exists r,
    extract py_db (str_of "Reply: " ++ feedback_marker ++ [SP; NL]) = Ret r /\
    feedback r = [].
Proof.
  assert (Hw : Forall (whitespace py_db) [SP; NL]) by (repeat constructor).
  assert (Hf : find feedback_marker
                 (str_of "Reply: " ++ feedback_marker ++ [SP; NL])
               = Some (length (str_of "Reply: ")))
    by (vm_compute; reflexivity).
  repeat (split; [assumption|]).
  exact (proj1 (proj2 (proj2 (blank_section_is_empty py_db)))
               (str_of "Reply: ") [SP; NL] Hw Hf).
Defined.

(** C2, as stated, fails: this reply holds the four markers once each and
    in the expected order, with the numeral 0.9 behind the first one, but
    two spaces stand between that marker and the numeral; the text fields
    are the trimmed texts between the markers, yet the score is the fallback
    0.5 and not 0.9. *)
Lemma two_spaces_counterexample :
  exists r,
    extract py_db
      (rationality_score_marker ++ str_of "  0.9 "
         ++ reasoning_marker ++ str_of " Good logic "
         ++ feedback_marker ++ str_of " Add evidence "
         ++ improved_argument_marker ++ str_of " Refined text.") = Ret r /\
    reason_for_score r = str_of "Good logic" /\
    feedback r = str_of "Add evidence" /\
    improved_argument r = str_of "Refined text." /\
    float_ py_db (str_of "0.9") = Ret float_0_9 /\
    rationality_score r = default_score /\
    rationality_score r <> float_0_9.
Proof.
  eexists. split; [vm_compute; reflexivity|].
  repeat split; try (vm_compute; reflexivity).
  cbn [rationality_score]. discriminate.
Qed.

(** * Further properties of the code *)

(** ** What the extractor returns in its text fields *)

Lemma occurs_refl s : occurs s s.
Proof. exists [], []. now rewrite app_nil_r. Qed.

Lemma occurs_trans a b c : occurs a b -> occurs b c -> occurs a c.
Proof.
  intros [p [q ->]] [p' [q' ->]]. exists (p' ++ p), (q ++ q').
  now rewrite <- !app_assoc.
Qed.

Lemma occurs_skipn n s : occurs (skipn n s) s.
Proof.
  exists (firstn n s), []. now rewrite app_nil_r, firstn_skipn.
Qed.

Lemma occurs_firstn n s : occurs (firstn n s) s.
Proof. exists [], (skipn n s). cbn [app]. now rewrite firstn_skipn. Qed.

Lemma occurs_upto t s : occurs (upto t s) s.
Proof.
  unfold upto. destruct (find t s); [apply occurs_firstn|apply occurs_refl].
Qed.

Lemma find_not_occurs m s : find m s = None -> ~ occurs m s.
Proof. intros H [p [q E]]. exact (find_none m s H p q E). Qed.

(** The text in front of the first occurrence of a terminator does not
    hold the terminator. *)
Lemma upto_free t s : t <> [] -> ~ occurs t (upto t s).
Proof.
  intros Ht. unfold upto. destruct (find t s) as [j|] eqn:E.
  - intros [p [q Hpq]].
    assert (Hs : s = p ++ t ++ (q ++ skipn j s)).
    { rewrite <- (firstn_skipn j s) at 1. rewrite Hpq.
      now rewrite <- !app_assoc. }
    assert (Hlen : length p < j).
    { assert (Hl : length (firstn j s) <= j) by apply firstn_le_length.
      rewrite Hpq, !length_app in Hl.
      destruct t; [congruence|]. simpl in Hl. lia. }
    pose proof (find_first t s j E (length p) Hlen) as Hf.
    rewrite Hs, skipn_app_length, prefixb_app in Hf. discriminate.
  - now apply find_not_occurs.
Qed.

Section FieldFacts.

Variable U : unicode_db.

Lemma lstrip_suffix s : exists a, s = a ++ lstrip U s.
Proof.
  induction s as [|c s [a IH]]; [now exists []|]. simpl.
  destruct (isspace U c).
  - exists (c :: a). simpl. now f_equal.
  - now exists [].
Qed.

Lemma rstrip_prefix s : exists b, s = rstrip U s ++ b.
Proof.
  unfold rstrip. destruct (lstrip_suffix (rev s)) as [a Ha].
  exists (rev a). rewrite <- rev_app_distr, <- Ha. now rewrite rev_involutive.
Qed.

Lemma strip_occurs s : occurs (strip U s) s.
Proof.
  unfold strip. destruct (lstrip_suffix s) as [a Ha].
  destruct (rstrip_prefix (lstrip U s)) as [b Hb].
  exists a, b. now rewrite <- Hb.
Qed.

Lemma lstrip_head s :
  match lstrip U s with
  | c :: _ => isspace U c = false
  | [] => True
  end.
Proof.
  induction s as [|c s IH]; simpl; [exact I|].
  destruct (isspace U c) eqn:E; [exact IH|exact E].
Qed.

Lemma lstrip_fixed s :
  match s with c :: _ => isspace U c = false | [] => True end ->
  lstrip U s = s.
Proof. destruct s as [|c s]; simpl; [reflexivity|]. now intros ->. Qed.

(** Trimming twice is trimming once. *)
Lemma strip_idem s : strip U (strip U s) = strip U s.
Proof.
  unfold strip at 1. set (y := strip U s).
  assert (Hy : lstrip U y = y).
  { apply lstrip_fixed. subst y. unfold strip.
    pose proof (lstrip_head s) as Hh.
    destruct (rstrip_prefix (lstrip U s)) as [b Hb].
    destruct (rstrip U (lstrip U s)) as [|c r]; [exact I|].
    rewrite Hb in Hh. exact Hh. }
  rewrite Hy. subst y. unfold strip, rstrip.
  now rewrite rev_involutive, lstrip_idem.
Qed.

Lemma strip_default d :
  forallb (fun c => (c <? 128)%N) d = true ->
  strip py_db d = d -> strip U d = d.
Proof.
  intros Ha Hd. rewrite <- Hd at 2. apply strip_ascii. now apply ascii_check.
Qed.

(** A text field is trimmed text, the fallbacks included. *)
Lemma text_field_trimmed m t d s :
  strip U d = d -> strip U (text_field U m t d s) = text_field U m t d s.
Proof.
  intros Hd. unfold text_field. destruct (after m s); [apply strip_idem|exact Hd].
Qed.

(** A text field found behind its marker is a piece of the input. *)
Lemma text_field_occurs m t d s :
  occurs m s -> occurs (text_field U m t d s) s.
Proof.
  intros Hm. unfold text_field, after.
  rewrite <- (firstn_skipn 0 s) in Hm. cbn [firstn skipn app] in Hm.
  destruct (find m s) as [i|] eqn:E.
  - eapply occurs_trans; [apply strip_occurs|].
    destruct t as [t'|].
    + eapply occurs_trans; [apply occurs_upto|apply occurs_skipn].
    + apply occurs_skipn.
  - exfalso. exact (find_not_occurs m s E Hm).
Qed.

(** A text field cut at a terminator does not hold the terminator. *)
Lemma text_field_free m t d s :
  t <> [] -> ~ occurs t d -> ~ occurs t (text_field U m (Some t) d s).
Proof.
  intros Ht Hd. unfold text_field. destruct (after m s) as [r|]; [|exact Hd].
  intros H. apply (upto_free t r Ht).
  eapply occurs_trans; [exact H|apply strip_occurs].
Qed.

Lemma prefixb_other_head c m d r :
  d <> c -> prefixb (c :: m) (d :: r) = false.
Proof. intros H. simpl. apply N.eqb_neq in H. now rewrite H. Qed.

(** Text without an asterisk in front of the input moves the first
    occurrence of a marker and nothing else. *)
Lemma after_preamble m p s :
  ~ In STAR p -> after (STAR :: m) (p ++ s) = after (STAR :: m) s.
Proof.
  intros Hp. unfold after. induction p as [|c p IH]; [reflexivity|].
  cbn [app]. rewrite find_eq.
  rewrite prefixb_other_head by (intros ->; apply Hp; now left).
  assert (Hp' : ~ In STAR p) by (intros H; apply Hp; now right).
  specialize (IH Hp'). destruct (find (STAR :: m) (p ++ s)) as [i|];
    destruct (find (STAR :: m) s) as [j|]; cbn [option_map];
    try discriminate; try reflexivity.
  exact IH.
Qed.

Lemma find_score_token_preamble p s :
  ~ In STAR p -> find_score_token U (p ++ s) = find_score_token U s.
Proof.
  intros Hp. induction p as [|c p IH]; [reflexivity|].
  cbn [app find_score_token].
  change (rationality_score_marker ++ [SP])
    with (STAR :: tl (rationality_score_marker ++ [SP])).
  rewrite prefixb_other_head by (intros ->; apply Hp; now left).
  apply IH. intros H. apply Hp. now right.
Qed.

End FieldFacts.

(** X1: on every reply the three text fields come out trimmed: trimming
    one of them again changes nothing, whether it was found behind its
    marker or is the fallback sentence. *)
Theorem text_fields_trimmed (U : unicode_db) (s : str) :
  exists r,
    extract U s = Ret r /\
    strip U (reason_for_score r) = reason_for_score r /\
    strip U (feedback r) = feedback r /\
    strip U (improved_argument r) = improved_argument r.
Proof.
  destruct (extract_fields U s) as [v [_ [_ He]]].
  eexists. split; [exact He|].
  cbn [reason_for_score feedback improved_argument].
  repeat split; apply text_field_trimmed; apply strip_default;
    vm_compute; reflexivity.
Qed.

(** X2: the extractor invents no text: a text field whose marker occurs
    in the reply is a contiguous piece of the reply. *)
Theorem text_fields_from_reply (U : unicode_db) (s : str) :
  exists r,
    extract U s = Ret r /\
    (occurs reasoning_marker s -> occurs (reason_for_score r) s) /\
    (occurs feedback_marker s -> occurs (feedback r) s) /\
    (occurs improved_argument_marker s -> occurs (improved_argument r) s).
Proof.
  destruct (extract_fields U s) as [v [_ [_ He]]].
  eexists. split; [exact He|].
  cbn [reason_for_score feedback improved_argument].
  repeat split; apply text_field_occurs.
Qed.

(** X3: the sections do not run into each other: on every reply the
    reasoning field holds no feedback marker and the feedback field holds
    no improved-argument marker. *)
Theorem text_fields_stop_at_terminator (U : unicode_db) (s : str) :
  exists r,
    extract U s = Ret r /\
    ~ occurs feedback_marker (reason_for_score r) /\
    ~ occurs improved_argument_marker (feedback r).
Proof.
  destruct (extract_fields U s) as [v [_ [_ He]]].
  eexists. split; [exact He|].
  cbn [reason_for_score feedback].
  split; apply text_field_free; try discriminate;
    apply find_not_occurs; vm_compute; reflexivity.
Qed.

(** X4: text in front of the reply that holds no asterisk, such as a
    greeting of the model, changes nothing in the result. *)
Theorem preamble_ignored (U : unicode_db) (p s : str) :
  ~ In STAR p -> extract U (p ++ s) = extract U s.
Proof.
  intros Hp. rewrite !extract_spec. unfold score_field, text_field.
  rewrite (find_score_token_preamble U p s Hp).
  change reasoning_marker with (STAR :: tl reasoning_marker).
  change feedback_marker with (STAR :: tl feedback_marker) at 2 4.
  change improved_argument_marker
    with (STAR :: tl improved_argument_marker) at 2 4.
  now rewrite !(after_preamble _ p s Hp).
Qed.

Lemma preamble_ignored_witness :
  ~ In STAR (str_of "Sure, here it is: ") /\
  extract py_db (str_of "Sure, here it is: " ++ str_of "**Feedback:** fine")
  = extract py_db (str_of "**Feedback:** fine").
Proof.
  assert (Hp : ~ In STAR (str_of "Sure, here it is: "))
    by (vm_compute; intuition discriminate).
  split; [exact Hp|].
  exact (preamble_ignored py_db (str_of "Sure, here it is: ")
                          (str_of "**Feedback:** fine") Hp).
Defined.

(** ** The reply to the response of the model *)

Section ResponseFacts.

Variable U : unicode_db.

Lemma lstrip_app s b :
  lstrip U (s ++ b) =
  match lstrip U s with
  | [] => lstrip U b
  | c :: y => (c :: y) ++ b
  end.
Proof.
  induction s as [|c s IH]; [reflexivity|]. cbn [app lstrip].
  destruct (isspace U c); [exact IH|reflexivity].
Qed.

Lemma rstrip_app_whitespace s b :
  Forall (whitespace U) b -> rstrip U (s ++ b) = rstrip U s.
Proof.
  intros Hb. unfold rstrip. rewrite rev_app_distr.
  now rewrite (lstrip_app_whitespace U (rev b) (rev s) (Forall_rev Hb)).
Qed.

(** White space around a text does not survive [strip]. *)
Lemma strip_padding a s b :
  Forall (whitespace U) a -> Forall (whitespace U) b ->
  strip U (a ++ s ++ b) = strip U s.
Proof.
  intros Ha Hb. unfold strip.
  rewrite (lstrip_app_whitespace U a (s ++ b) Ha), lstrip_app.
  destruct (lstrip U s) as [|c y].
  - now rewrite (lstrip_whitespace U b Hb).
  - now apply rstrip_app_whitespace.
Qed.

End ResponseFacts.

Lemma extract_nil (U : unicode_db) :
  extract U [] =
  Ret {| rationality_score := default_score;
         reason_for_score := default_reason;
         feedback := default_feedback;
         improved_argument := default_improved |}.
Proof. run_extract. Qed.

(** X5: the reply to a response of the model is an error only for the
    reasons the handler names: status 400 with the content-restriction
    message when [parts] or [text] is empty, status 500 with the message of
    the exception when reading [parts] or [text] raised.  Parsing the text
    never leads to an error reply. *)
Theorem respond_errors (U : unicode_db) (part : Type) (str_of_exn : exn -> str)
        (r : response part) (status : nat) (message : str) :
  respond U part str_of_exn r = ReplyError status message ->
  (status = 400 /\ message = blocked_message /\
   (parts r = Value [] \/ text r = Value [])) \/
  (status = 500 /\
   (parts r = Exception message \/ text r = Exception message)).
Proof.
  unfold respond. destruct (parts r) as [[|p ps]|m].
  - intros [= <- <-]. left. auto.
  - destruct (text r) as [[|c t]|m].
    + intros [= <- <-]. left. auto.
    + destruct (extract_fields U (strip U (c :: t))) as [v [_ [_ ->]]].
      discriminate.
    + intros [= <- <-]. right. auto.
  - intros [= <- <-]. right. auto.
Qed.

Lemma respond_errors_witness :
  respond py_db unit (fun _ => [])
          {| parts := Value [tt]; text := Exception (str_of "blocked") |}
  = ReplyError 500 (str_of "blocked") /\
  ((500 = 400 /\ str_of "blocked" = blocked_message /\
    (Value [tt] = Value [] \/
     Exception (str_of "blocked") = Value (A := str) [])) \/
   (500 = 500 /\
    (Value (A := list unit) [tt] = Exception (str_of "blocked") \/
     Exception (A := str) (str_of "blocked") = Exception (str_of "blocked")))).
Proof.
  split; [reflexivity|].
  exact (respond_errors py_db unit (fun _ => [])
           {| parts := Value [tt]; text := Exception (str_of "blocked") |}
           500 (str_of "blocked") eq_refl).
Defined.

(** X6: a response whose text is not empty but is white space only is not
    treated as blocked: the reply has status 200 and carries the four
    fallbacks. *)
Theorem respond_blank_text (U : unicode_db) (part : Type)
        (str_of_exn : exn -> str) (ps : list part) (t : str) :
  ps <> [] -> t <> [] -> Forall (whitespace U) t ->
  respond U part str_of_exn {| parts := Value ps; text := Value t |} =
  Reply200 {| rationality_score := default_score;
              reason_for_score := str_of "No reasoning provided.";
              feedback := str_of "No feedback provided.";
              improved_argument := str_of "No improved argument provided." |}.
Proof.
  intros Hps Ht Hw. unfold respond. cbn [parts text].
  destruct ps as [|p ps]; [congruence|].
  destruct t as [|c t]; [congruence|].
  cbn zeta. rewrite (strip_whitespace U _ Hw).
  now rewrite extract_nil.
Qed.

Lemma respond_blank_text_witness :
  [tt] <> [] /\ [SP; NL] <> [] /\ Forall (whitespace py_db) [SP; NL] /\
  respond py_db unit (fun _ => []) {| parts := Value [tt]; text := Value [SP; NL] |} =
  Reply200 {| rationality_score := default_score;
              reason_for_score := str_of "No reasoning provided.";
              feedback := str_of "No feedback provided.";
              improved_argument := str_of "No improved argument provided." |}.
Proof.
  assert (H1 : [tt] <> []) by discriminate.
  assert (H2 : [SP; NL] <> []) by discriminate.
  assert (H3 : Forall (whitespace py_db) [SP; NL]) by (repeat constructor).
  repeat (split; [assumption|]).
  exact (respond_blank_text py_db unit (fun _ => []) [tt] [SP; NL] H1 H2 H3).
Defined.

(** X7: white space around the text of the response has no influence on
    the reply. *)
Theorem respond_padding (U : unicode_db) (part : Type)
        (str_of_exn : exn -> str) (ps : list part) (a t b : str) :
  t <> [] -> Forall (whitespace U) a -> Forall (whitespace U) b ->
  respond U part str_of_exn {| parts := Value ps; text := Value (a ++ t ++ b) |} =
  respond U part str_of_exn {| parts := Value ps; text := Value t |}.
Proof.
  intros Ht Ha Hb. unfold respond. cbn [parts text].
  destruct ps as [|p ps]; [reflexivity|].
  destruct t as [|c t]; [congruence|].
  destruct (a ++ (c :: t) ++ b) as [|d u] eqn:E.
  - destruct a; discriminate.
  - cbn zeta. rewrite <- E. now rewrite (strip_padding U a (c :: t) b Ha Hb).
Qed.

Lemma respond_padding_witness :
  str_of "**Feedback:** fine" <> [] /\
  Forall (whitespace py_db) [NL; SP] /\ Forall (whitespace py_db) [SP; NL] /\
  respond py_db unit (fun _ => [])
          {| parts := Value [tt];
             text := Value ([NL; SP] ++ str_of "**Feedback:** fine" ++ [SP; NL]) |} =
  respond py_db unit (fun _ => [])
          {| parts := Value [tt]; text := Value (str_of "**Feedback:** fine") |}.
Proof.
  assert (H1 : str_of "**Feedback:** fine" <> []) by discriminate.
  assert (H2 : Forall (whitespace py_db) [NL; SP]) by (repeat constructor).
  assert (H3 : Forall (whitespace py_db) [SP; NL]) by (repeat constructor).
  repeat (split; [assumption|]).
  exact (respond_padding py_db unit (fun _ => []) [tt] [NL; SP]
                         (str_of "**Feedback:** fine") [SP; NL] H1 H2 H3).
Defined.

(** ** The check of the request body *)

Lemma dict_get_nil k : dict_get k [] = None.
Proof. reflexivity. Qed.

(** The body passes the check of lines 63-68 exactly when it is an object
    with both keys. *)
Lemma read_request_inr data topic argument :
  read_request data = inr (topic, argument) <->
  exists kv,
    data = JDict kv /\
    dict_get (str_of "topic") kv = Some topic /\
    dict_get (str_of "text") kv = Some argument.
Proof.
  split.
  - unfold read_request.
    destruct data as [|b|z|f|s|l|kv]; cbn [truthy negb json_contains json_getitem].
    + discriminate.
    + destruct b; discriminate.
    + destruct (Z.eqb z 0); discriminate.
    + destruct f; discriminate.
    + destruct s as [|c s]; cbn [negb]; [discriminate|].
      destruct (contains (str_of "text") (c :: s)); [|discriminate].
      destruct (contains (str_of "topic") (c :: s)); discriminate.
    + destruct l as [|x l]; cbn [negb]; [discriminate|].
      destruct (existsb (is_str (str_of "text")) (x :: l)); [|discriminate].
      destruct (existsb (is_str (str_of "topic")) (x :: l)); discriminate.
    + destruct kv as [|b kv]; cbn [negb]; [discriminate|].
      destruct (dict_get (str_of "text") (b :: kv)) as [a|] eqn:Ea;
        [|discriminate].
      destruct (dict_get (str_of "topic") (b :: kv)) as [t|] eqn:Et;
        [|discriminate].
      intros [= <- <-]. now exists (b :: kv).
  - intros [kv [-> [Ht Ha]]]. unfold read_request.
    destruct kv as [|b kv]; [discriminate|].
    cbn [truthy negb json_contains json_getitem]. now rewrite Ha, Ht.
Qed.

(** X8: the request is accepted exactly when its body is a JSON object
    with the keys "text" and "topic"; the values bound to them are taken as
    they are, of whatever JSON type. *)
Theorem request_accepted (data topic argument : json) :
  read_request data = inr (topic, argument) <->
  exists kv,
    data = JDict kv /\
    dict_get (str_of "topic") kv = Some topic /\
    dict_get (str_of "text") kv = Some argument.
Proof. exact (read_request_inr data topic argument). Qed.

(** X9: the check of the body lets an exception escape exactly for the
    bodies that are true without being objects and either cannot be
    searched (a true boolean, a number other than zero) or hold both names
    (a list with the elements "text" and "topic", a string with both
    substrings); the exception is a [TypeError], never a [KeyError]. *)
Theorem request_unhandled (data : json) (e : unhandled) :
  read_request data = inl (Unhandled e) <->
  e = UnhandledTypeError /\
  (data = JBool true \/
   (exists z, data = JInt z /\ z <> 0%Z) \/
   (exists f, data = JFloat f /\ forall sg, f <> S754_zero sg) \/
   (exists l, data = JList l /\
              existsb (is_str (str_of "text")) l = true /\
              existsb (is_str (str_of "topic")) l = true) \/
   (exists s, data = JStr s /\
              contains (str_of "text") s = true /\
              contains (str_of "topic") s = true)).
Proof.
  split.
  - unfold read_request.
    destruct data as [|b|z|f|s|l|kv]; cbn [truthy negb json_contains json_getitem].
    + discriminate.
    + destruct b; [|discriminate]. intros [= <-]. split; auto.
    + destruct (Z.eqb z 0) eqn:Ez; [discriminate|]. intros [= <-].
      split; [reflexivity|]. right; left. exists z. split; [reflexivity|].
      now apply Z.eqb_neq.
    + destruct f; try discriminate; intros [= <-]; (split; [reflexivity|]);
        right; right; left; eexists; (split; [reflexivity|]); discriminate.
    + destruct s as [|c s]; cbn [negb]; [discriminate|].
      destruct (contains (str_of "text") (c :: s)) eqn:E1; [|discriminate].
      destruct (contains (str_of "topic") (c :: s)) eqn:E2; [|discriminate].
      intros [= <-]. split; [reflexivity|]. do 4 right.
      exists (c :: s). auto.
    + destruct l as [|x l]; cbn [negb]; [discriminate|].
      destruct (existsb (is_str (str_of "text")) (x :: l)) eqn:E1;
        [|discriminate].
      destruct (existsb (is_str (str_of "topic")) (x :: l)) eqn:E2;
        [|discriminate].
      intros [= <-]. split; [reflexivity|]. do 3 right. left.
      exists (x :: l). auto.
    + destruct kv as [|b kv]; cbn [negb]; [discriminate|].
      destruct (dict_get (str_of "text") (b :: kv)); [|discriminate].
      destruct (dict_get (str_of "topic") (b :: kv)); discriminate.
  - intros [-> [->|[[z [-> Hz]]|[[f [-> Hf]]|[[l [-> [H1 H2]]]|[s [-> [H1 H2]]]]]]]];
      unfold read_request; cbn [truthy negb json_contains json_getitem].
    + reflexivity.
    + apply Z.eqb_neq in Hz. now rewrite Hz.
    + destruct f; try reflexivity. now destruct (Hf s).
    + destruct l as [|x l]; [discriminate|]. cbn [negb]. now rewrite H1, H2.
    + destruct s as [|c s]; [discriminate|]. cbn [negb]. now rewrite H1, H2.
Qed.

(** ** The handler as a whole *)

(** X10: a reply with status 200 is sent only for a JSON object with both
    keys, when the call of the model returned a response whose [parts] and
    [text] are not empty; its body is what the extractor makes of the
    trimmed text, so its score is not negative and its text fields are
    trimmed. *)
Theorem evaluate_argument_200 (U : unicode_db) (part : Type)
        (str_of_exn : exn -> str)
        (generate_content : json -> json -> attempt (response part))
        (data : json) (body : StructuredFeedback) :
  evaluate_argument U part str_of_exn generate_content data = Reply200 body ->
  (exists kv topic argument r p ps c t,
     data = JDict kv /\
     dict_get (str_of "topic") kv = Some topic /\
     dict_get (str_of "text") kv = Some argument /\
     generate_content topic argument = Value r /\
     parts r = Value (p :: ps) /\
     text r = Value (c :: t) /\
     extract U (strip U (c :: t)) = Ret body) /\
  SFleb (S754_zero false) (rationality_score body) = true /\
  strip U (reason_for_score body) = reason_for_score body /\
  strip U (feedback body) = feedback body /\
  strip U (improved_argument body) = improved_argument body.
Proof.
  unfold evaluate_argument.
  destruct (read_request data) as [reply|[topic argument]] eqn:Er.
  - intros ->. exfalso. revert Er. unfold read_request.
    destruct (negb (truthy data)); [discriminate|].
    destruct (json_contains (str_of "text") data) as [[|]|]; try discriminate.
    destruct (json_contains (str_of "topic") data) as [[|]|]; try discriminate.
    destruct (json_getitem data (str_of "topic")); [|discriminate].
    destruct (json_getitem data (str_of "text")); discriminate.
  - apply read_request_inr in Er. destruct Er as [kv [-> [Ht Ha]]].
    destruct (generate_content topic argument) as [r|m] eqn:Eg; [|discriminate].
    unfold respond.
    destruct (parts r) as [[|p ps]|m] eqn:Ep; try discriminate.
    destruct (text r) as [[|c t]|m] eqn:Et; try discriminate.
    cbn zeta.
    destruct (extract_fields U (strip U (c :: t))) as [v [_ [Hn He]]].
    rewrite He. intros [= <-]. split.
    + exists kv, topic, argument, r, p, ps, c, t. auto 10.
    + cbn [rationality_score reason_for_score feedback improved_argument].
      split; [exact Hn|].
      repeat split; apply text_field_trimmed; apply strip_default;
        vm_compute; reflexivity.
Qed.

Lemma evaluate_argument_200_witness :
  let data := JDict [(str_of "topic", JStr (str_of "Tax"));
                     (str_of "text", JStr (str_of "Taxes fund schools."))] in
  let reply := {| parts := Value [tt];
                  text := Value (str_of "**Rationality Score:** 0.8 ") |} in
  exists body,
    evaluate_argument py_db unit (fun _ => []) (fun _ _ => Value reply) data
    = Reply200 body /\
    SFleb (S754_zero false) (rationality_score body) = true /\
    strip py_db (reason_for_score body) = reason_for_score body.
Proof.
  intros data reply. eexists. split; [vm_compute; reflexivity|].
  pose proof (evaluate_argument_200 py_db unit (fun _ => [])
                (fun _ _ => Value reply) data _ eq_refl) as [_ [Hn [Hr _]]].
  split; [exact Hn|exact Hr].
Defined.

(** ** The choice of the model at start-up *)

Lemma replace_from_skip old new x r :
  replace_from old new (length x) (x ++ r) = replace_from old new 0 r.
Proof.
  induction x as [|c x IH]; [|exact IH].
  cbn [length app]. now destruct r.
Qed.

(** [replace] leaves a string without an occurrence as it is. *)
Lemma replace_absent old new s :
  find old s = None -> replace old new s = s.
Proof.
  unfold replace. induction s as [|c s IH]; [reflexivity|].
  rewrite find_eq. cbn [replace_from].
  destruct (prefixb old (c :: s)); [discriminate|].
  destruct (find old s); [discriminate|].
  intros _. now rewrite IH.
Qed.

(** [replace] rewrites an occurrence at the front and goes on behind it. *)
Lemma replace_prefix old new r :
  old <> [] -> replace old new (old ++ r) = new ++ replace old new r.
Proof.
  intros Ho. unfold replace. destruct old as [|c old]; [congruence|].
  pose proof (prefixb_app (c :: old) r) as Hp. cbn [app] in Hp.
  cbn [app replace_from]. rewrite Hp.
  replace (length (c :: old) - 1) with (length old) by (cbn [length]; lia).
  f_equal.
  apply replace_from_skip.
Qed.

(** [replace], once past the text in front of the first occurrence. *)
Lemma replace_first old new p r :
  find old (p ++ old ++ r) = Some (length p) ->
  old <> [] ->
  replace old new (p ++ old ++ r) = p ++ new ++ replace old new r.
Proof.
  intros Hf Ho. induction p as [|c p IH].
  - cbn [app]. now apply replace_prefix.
  - pose proof (find_first _ _ _ Hf 0 (Nat.lt_0_succ _)) as H0.
    cbn [skipn app] in H0. unfold replace in *. cbn [app replace_from].
    rewrite H0. f_equal. apply IH. eapply find_tail. exact Hf.
Qed.

Section StartupFacts.

Variable L : case_db.

Lemma best_model_some names m :
  best_model L names = Some m <->
  exists pre name post,
    names = pre ++ name :: post /\
    Forall (fun n => eligible L n = false) pre /\
    eligible L name = true /\
    m = replace (str_of "models/") [] name.
Proof.
  split.
  - induction names as [|n names IH]; [discriminate|]. cbn [best_model].
    destruct (eligible L n) eqn:E.
    + intros [= <-]. exists [], n, names. auto.
    + intros H. destruct (IH H) as [pre [name [post [-> [Hp [He Hm]]]]]].
      exists (n :: pre), name, post. auto.
  - intros [pre [name [post [-> [Hp [He ->]]]]]].
    induction Hp as [|n pre Hn _ IH]; cbn [app best_model].
    + now rewrite He.
    + now rewrite Hn.
Qed.

Lemma best_model_none names :
  best_model L names = None <-> Forall (fun n => eligible L n = false) names.
Proof.
  split.
  - induction names as [|n names IH]; [constructor|]. cbn [best_model].
    destruct (eligible L n) eqn:E; [discriminate|]. auto.
  - induction 1 as [|n names Hn _ IH]; [reflexivity|].
    cbn [best_model]. now rewrite Hn.
Qed.

End StartupFacts.

(** X11: the loop chooses the first name of the listing that passes the
    filter (its lower-case form holds "gemini" and neither "flash" nor
    "vision"), with "models/" removed; later names are not looked at, and
    [best_model] stays [None] exactly when no name of the listing passes. *)
Theorem best_model_first (L : case_db) (names : list str) :
  (forall m,
     best_model L names = Some m <->
     exists pre name post,
       names = pre ++ name :: post /\
       Forall (fun n => eligible L n = false) pre /\
       eligible L name = true /\
       m = replace (str_of "models/") [] name) /\
  (best_model L names = None <->
   Forall (fun n => eligible L n = false) names).
Proof.
  split; [intros m; apply best_model_some|apply best_model_none].
Qed.

(** X12: what the chosen name looks like.  A name without "models/" is
    chosen as it is; a name that begins with "models/" and holds it nowhere
    else loses just that prefix; and "models/" is removed wherever it first
    occurs, not only at the front. *)
Theorem best_model_name (L : case_db) (rest : list str) :
  (forall name,
     eligible L name = true ->
     ~ occurs (str_of "models/") name ->
     best_model L (name :: rest) = Some name) /\
  (forall name,
     eligible L (str_of "models/" ++ name) = true ->
     ~ occurs (str_of "models/") name ->
     best_model L ((str_of "models/" ++ name) :: rest) = Some name) /\
  (forall p name,
     eligible L (p ++ str_of "models/" ++ name) = true ->
     find (str_of "models/") (p ++ str_of "models/" ++ name)
     = Some (length p) ->
     ~ occurs (str_of "models/") name ->
     best_model L ((p ++ str_of "models/" ++ name) :: rest)
     = Some (p ++ name)).
Proof.
  repeat split.
  - intros name He Hn. cbn [best_model]. rewrite He.
    now rewrite (replace_absent _ _ _ (find_absent _ _ Hn)).
  - intros name He Hn. cbn [best_model]. rewrite He.
    rewrite replace_prefix by discriminate.
    now rewrite (replace_absent _ _ _ (find_absent _ _ Hn)).
  - intros p name He Hf Hn. cbn [best_model]. rewrite He.
    rewrite (replace_first _ _ _ _ Hf) by discriminate.
    cbn [app]. now rewrite (replace_absent _ _ _ (find_absent _ _ Hn)).
Qed.

Lemma best_model_name_witness :
  eligible ascii_case_db (str_of "models/" ++ str_of "Gemini-Pro") = true /\
  ~ occurs (str_of "models/") (str_of "Gemini-Pro") /\
  best_model ascii_case_db
    [str_of "models/" ++ str_of "Gemini-Pro"; str_of "models/gemini-ultra"]
  = Some (str_of "Gemini-Pro").
Proof.
  assert (He : eligible ascii_case_db (str_of "models/" ++ str_of "Gemini-Pro")
               = true) by (vm_compute; reflexivity).
  assert (Hn : ~ occurs (str_of "models/") (str_of "Gemini-Pro"))
    by (apply find_not_occurs; vm_compute; reflexivity).
  repeat (split; [assumption|]).
  exact (proj1 (proj2 (best_model_name ascii_case_db
                         [str_of "models/gemini-ultra"]))
               (str_of "Gemini-Pro") He Hn).
Defined.

(** The loop on a listing: the flash and vision models are passed over. *)
Example best_model_listing :
  best_model ascii_case_db
    [str_of "models/embedding-001";
     str_of "models/gemini-1.5-flash";
     str_of "models/Gemini-Pro-Vision";
     str_of "models/gemini-1.5-pro";
     str_of "models/gemini-pro"]
  = Some (str_of "gemini-1.5-pro").
Proof. vm_compute. reflexivity. Qed.

Example best_model_no_match :
  best_model ascii_case_db
    [str_of "models/embedding-001"; str_of "models/gemini-1.5-flash"]
  = None.
Proof. vm_compute. reflexivity. Qed.

(** A body that is a list with both names passes the check of line 64 and
    fails at [data["topic"]]. *)
Example read_request_list :
  read_request (JList [JStr (str_of "text"); JStr (str_of "topic")])
  = inl (Unhandled UnhandledTypeError).
Proof. vm_compute. reflexivity. Qed.

Example read_request_missing_topic :
  read_request (JDict [(str_of "text", JStr (str_of "Taxes fund schools."))])
  = inl (ReplyError 400 (str_of "No text or topic provided")).
Proof. vm_compute. reflexivity. Qed.
